(** * ferri: pm/jira_sync.py, a shallow embedding

    The script reads a CSV file of epics (or backlog items) with
    [csv.DictReader], walks over the records, derives a simulated Jira key
    for every record that has no [JiraTicketID] yet, and, outside dry-run
    mode, rewrites the CSV file with [csv.DictWriter].

    Modelling choices.
    - Text is [string]; a source whose text is ASCII is modelled exactly
      (there the bytes on disk and the characters of the decoded text
      coincide).
    - The file system is a finite map from paths to contents, the process
      environment a finite map from names to values, standard output a list
      of printed lines.  Directory structure, permissions and device errors
      are not part of the model: opening a missing file for reading is the
      one I/O error of a run, and a destination that cannot be opened for
      writing is modelled for the save alone, in [Device].
    - Python exceptions are values of [exn]; a computation returns
      [exn + A] together with the world it leaves behind.
    - [csv.reader], [csv.writer], [csv.DictReader] and [csv.DictWriter] are
      modelled for the default ([excel]) dialect of CPython 3.11 and later:
      delimiter comma, quote character double quote, doubled quotes, no
      escape character, line terminator CR LF, minimal quoting, not strict. *)

From Stdlib Require Import String Ascii List Bool Arith Lia.
From stdpp Require Import base option list strings gmap.
Import ListNotations.

Local Open Scope string_scope.
Local Open Scope list_scope.

(** ** Characters and text *)

Module Text.

Definition LF : ascii := "010"%char.
Definition CR : ascii := "013"%char.
Definition COMMA : ascii := ","%char.
Definition DQUOTE : ascii := "034"%char.
Definition SQUOTE : ascii := "039"%char.
Definition BACKSLASH : ascii := "092"%char.

Definition chr (c : ascii) : string := String c EmptyString.
Definition crlf : string := String CR (String LF EmptyString).
Definition lf : string := chr LF.

Definition is_empty (s : string) : bool :=
  match s with EmptyString => true | String _ _ => false end.

(** [s + c] for a single character [c]. *)
Fixpoint snoc (s : string) (c : ascii) : string :=
  match s with
  | EmptyString => chr c
  | String a r => String a (snoc r c)
  end.

Fixpoint existsb (p : ascii -> bool) (s : string) : bool :=
  match s with
  | EmptyString => false
  | String a r => p a || existsb p r
  end.

(** [str.replace(old, new)] where [old] is one character: every occurrence
    is replaced, left to right. *)
Fixpoint replace_char (old : ascii) (new : string) (s : string) : string :=
  match s with
  | EmptyString => EmptyString
  | String a r =>
      if Ascii.eqb a old then new ++ replace_char old new r
      else String a (replace_char old new r)
  end.

(** [s[:n]] *)
Fixpoint take (n : nat) (s : string) : string :=
  match n, s with
  | S n', String a r => String a (take n' r)
  | _, _ => EmptyString
  end.

(** [sep.join(l)] *)
Fixpoint join (sep : string) (l : list string) : string :=
  match l with
  | [] => EmptyString
  | [x] => x
  | x :: r => x ++ sep ++ join sep r
  end.

Fixpoint concat (l : list string) : string :=
  match l with
  | [] => EmptyString
  | x :: r => x ++ concat r
  end.

End Text.

(** ** Python values held by a record

    [csv.DictReader] builds dictionaries whose keys are column names, plus
    the key [None] (its default [restkey]) for the surplus fields of a long
    row; the values are strings, [None] (its default [restval]) for the
    missing fields of a short row, and a list of strings under [restkey]. *)

Module Py.

Inductive value :=
| VStr (s : string)
| VNone
| VList (l : list string).

(** A dictionary key: [Some name] is the string [name], [None] is Python's
    [None]. *)
Definition key := option string.

(** A [dict] keeps insertion order; assigning to an existing key keeps its
    position. *)
Definition dict := list (key * value).

Inductive exn :=
| FileNotFoundError (path : string)
| KeyError (k : string)
| AttributeError
| TypeError
| IndexError
| ValueError
| CsvError (msg : string).

Definition key_eqb (a b : key) : bool :=
  match a, b with
  | None, None => true
  | Some x, Some y => String.eqb x y
  | _, _ => false
  end.

(** [d.get(k)]: [None] here is "absent". *)
Fixpoint get (k : key) (d : dict) : option value :=
  match d with
  | [] => None
  | (k', v) :: r => if key_eqb k' k then Some v else get k r
  end.

(** [d[k] = v] *)
Fixpoint set (k : key) (v : value) (d : dict) : dict :=
  match d with
  | [] => [(k, v)]
  | (k', v') :: r => if key_eqb k' k then (k', v) :: r else (k', v') :: set k v r
  end.

(** [d.keys()] *)
Definition keys (d : dict) : list key := map fst d.

(** [d[name]] for a string key: raises [KeyError] when absent. *)
Definition getitem (name : string) (d : dict) : exn + value :=
  match get (Some name) d with
  | Some v => inr v
  | None => inl (KeyError name)
  end.

(** Truth value of the result of [d.get(k)]; an absent key gives [None],
    which is false, like the empty string and the empty list. *)
Definition truthy (o : option value) : bool :=
  match o with
  | Some (VStr s) => negb (Text.is_empty s)
  | Some (VList l) => match l with [] => false | _ => true end
  | Some VNone | None => false
  end.

(** [dict(zip(ks, vs))]: the pairs are inserted from left to right, so a
    repeated column name keeps its first position and its last value. *)
Definition dict_zip (ks vs : list string) : dict :=
  fold_left (fun d kv => set (Some (fst kv)) (VStr (snd kv)) d) (combine ks vs) [].

End Py.

(** Computations that may raise: [exn + A], with [inl] the raised
    exception. *)
Definition bind_exn {A B} (m : Py.exn + A) (f : A -> Py.exn + B) : Py.exn + B :=
  match m with
  | inl e => inl e
  | inr a => f a
  end.

Notation "x <-! m ;; k" := (bind_exn m (fun x => k))
  (at level 90, m at next level, right associativity).

(** ** The [csv] module, [excel] dialect *)

Module Csv.
Import Text Py.

(** [csv.field_size_limit()] *)
Definition field_limit : N := 131072%N.

Inductive ParserState :=
| START_RECORD
| START_FIELD
| IN_FIELD
| IN_QUOTED_FIELD
| QUOTE_IN_QUOTED_FIELD
| EAT_CRNL.

(** The states [ESCAPED_CHAR], [AFTER_ESCAPED_CRNL] and
    [ESCAPE_IN_QUOTED_FIELD] of the C reader are entered only on the
    dialect's escape character, which [excel] does not have. *)

Record ReaderObj := mkReader {
  state : ParserState;
  fields : list string;   (* the fields of the record parsed so far *)
  field : string          (* the characters of the current field *)
}.

(** What the reader is fed: a character of the line, or the end-of-line
    marker it is given after the last character of each line. *)
Inductive input :=
| Chr (c : ascii)
| EOL.

Definition set_state (s : ParserState) (r : ReaderObj) : ReaderObj :=
  mkReader s (fields r) (field r).

Definition parse_reset : ReaderObj := mkReader START_RECORD [] EmptyString.

Definition parse_save_field (r : ReaderObj) : ReaderObj :=
  mkReader (state r) (fields r ++ [field r]) EmptyString.

Definition parse_add_char (r : ReaderObj) (c : ascii) : exn + ReaderObj :=
  if (field_limit <=? N.of_nat (String.length (field r)))%N
  then inl (CsvError "field larger than field limit (131072)")
  else inr (mkReader (state r) (fields r) (snoc (field r) c)).

Definition is_newline (c : ascii) : bool := Ascii.eqb c LF || Ascii.eqb c CR.

(** The [START_FIELD] case, which [START_RECORD] falls through to. *)
Definition start_field (r : ReaderObj) (c : input) : exn + ReaderObj :=
  match c with
  | EOL => inr (set_state START_RECORD (parse_save_field r))
  | Chr a =>
      if is_newline a then inr (set_state EAT_CRNL (parse_save_field r))
      else if Ascii.eqb a DQUOTE then inr (set_state IN_QUOTED_FIELD r)
      else if Ascii.eqb a COMMA then inr (parse_save_field r)
      else r' <-! parse_add_char r a ;; inr (set_state IN_FIELD r')
  end.

Definition parse_process_char (r : ReaderObj) (c : input) : exn + ReaderObj :=
  match state r with
  | START_RECORD =>
      match c with
      | EOL => inr r
      | Chr a =>
          if is_newline a then inr (set_state EAT_CRNL r)
          else start_field (set_state START_FIELD r) c
      end
  | START_FIELD => start_field r c
  | IN_FIELD =>
      match c with
      | EOL => inr (set_state START_RECORD (parse_save_field r))
      | Chr a =>
          if is_newline a then inr (set_state EAT_CRNL (parse_save_field r))
          else if Ascii.eqb a COMMA then inr (set_state START_FIELD (parse_save_field r))
          else parse_add_char r a
      end
  | IN_QUOTED_FIELD =>
      match c with
      | EOL => inr r
      | Chr a =>
          if Ascii.eqb a DQUOTE then inr (set_state QUOTE_IN_QUOTED_FIELD r)
          else parse_add_char r a
      end
  | QUOTE_IN_QUOTED_FIELD =>
      match c with
      | Chr a =>
          if Ascii.eqb a DQUOTE
          then r' <-! parse_add_char r a ;; inr (set_state IN_QUOTED_FIELD r')
          else if Ascii.eqb a COMMA then inr (set_state START_FIELD (parse_save_field r))
          else if is_newline a then inr (set_state EAT_CRNL (parse_save_field r))
          else r' <-! parse_add_char r a ;; inr (set_state IN_FIELD r')
      | EOL => inr (set_state START_RECORD (parse_save_field r))
      end
  | EAT_CRNL =>
      match c with
      | Chr a =>
          if is_newline a then inr r
          else inl (CsvError "new-line character seen in unquoted field")
      | EOL => inr (set_state START_RECORD r)
      end
  end.

(** The characters of one line, in order. *)
Fixpoint feed (r : ReaderObj) (s : string) : exn + ReaderObj :=
  match s with
  | EmptyString => inr r
  | String a rest => r' <-! parse_process_char r (Chr a) ;; feed r' rest
  end.

(** One line of input: its characters, then the end-of-line marker. *)
Definition feed_line (r : ReaderObj) (line : string) : exn + ReaderObj :=
  r' <-! feed r line ;; parse_process_char r' EOL.

Definition in_quoted_field (s : ParserState) : bool :=
  match s with IN_QUOTED_FIELD => true | _ => false end.

(** [list(csv.reader(lines))].  A record is complete when a line leaves the
    reader in [START_RECORD]; otherwise (inside a quoted field) the next line
    continues it.  When the lines run out inside a record, what has been
    read is returned as the last record. *)
Fixpoint reader_from (r : ReaderObj) (lines : list string) : exn + list (list string) :=
  match lines with
  | [] =>
      if negb (is_empty (field r)) || in_quoted_field (state r)
      then inr [fields (parse_save_field r)]
      else inr []
  | l :: rest =>
      r' <-! feed_line r l ;;
      match state r' with
      | START_RECORD =>
          rows <-! reader_from parse_reset rest ;; inr (fields r' :: rows)
      | _ => reader_from r' rest
      end
  end.

Definition reader (lines : list string) : exn + list (list string) :=
  reader_from parse_reset lines.

(** [DictReader.__next__] on one row of the underlying reader. *)
Definition row_dict (fieldnames : list string) (row : list string) : dict :=
  let d := dict_zip fieldnames row in
  let lf := length fieldnames in
  let lr := length row in
  if (lf <? lr)%nat then set None (VList (drop lf row)) d
  else if (lr <? lf)%nat then fold_left (fun d k => set (Some k) VNone d) (drop lr fieldnames) d
  else d.

Definition is_blank (row : list string) : bool :=
  match row with [] => true | _ => false end.

(** [list(csv.DictReader(lines))]: the first row of the reader is the
    header (no row at all: no header and no record); blank rows after it
    are passed over. *)
Definition DictReader (lines : list string) : exn + list dict :=
  rows <-! reader lines ;;
  match rows with
  | [] => inr []
  | fieldnames :: rest =>
      inr (map (row_dict fieldnames) (List.filter (fun row => negb (is_blank row)) rest))
  end.

(** *** Writing *)

(** The characters that make [csv.writer] quote a field: the delimiter, the
    quote character and the characters of the line terminator. *)
Definition needs_quoting (c : ascii) : bool :=
  Ascii.eqb c COMMA || Ascii.eqb c DQUOTE || Ascii.eqb c CR || Ascii.eqb c LF.

(** Every quote character is doubled. *)
Fixpoint double_quotes (s : string) : string :=
  match s with
  | EmptyString => EmptyString
  | String a r =>
      if Ascii.eqb a DQUOTE then String DQUOTE (String DQUOTE (double_quotes r))
      else String a (double_quotes r)
  end.

(** [join_append] of the C writer for one field. *)
Definition join_append (s : string) : string :=
  if Text.existsb needs_quoting s
  then String DQUOTE (double_quotes s ++ chr DQUOTE)
  else s.

Definition hex_digit (n : nat) : ascii :=
  match n with
  | 0 => "0" | 1 => "1" | 2 => "2" | 3 => "3" | 4 => "4" | 5 => "5" | 6 => "6"
  | 7 => "7" | 8 => "8" | 9 => "9" | 10 => "a" | 11 => "b" | 12 => "c"
  | 13 => "d" | 14 => "e" | _ => "f"
  end%char.

(** [repr] of a string, character by character, for the quote [q] chosen.
    Characters above 127 are copied. *)
Definition repr_char (q c : ascii) : string :=
  let n := nat_of_ascii c in
  if Ascii.eqb c q || Ascii.eqb c BACKSLASH then String BACKSLASH (chr c)
  else if Ascii.eqb c "009"%char then String BACKSLASH "t"
  else if Ascii.eqb c LF then String BACKSLASH "n"
  else if Ascii.eqb c CR then String BACKSLASH "r"
  else if (n <? 32)%nat || (n =? 127)%nat
  then String BACKSLASH (String "x"%char
         (String (hex_digit (n / 16)) (chr (hex_digit (n mod 16)))))
  else chr c.

Fixpoint repr_body (q : ascii) (s : string) : string :=
  match s with
  | EmptyString => EmptyString
  | String a r => repr_char q a ++ repr_body q r
  end.

(** [repr(s)]: single quotes, unless [s] has a single quote and no double
    quote. *)
Definition repr (s : string) : string :=
  let q :=
    if Text.existsb (Ascii.eqb SQUOTE) s && negb (Text.existsb (Ascii.eqb DQUOTE) s)
    then DQUOTE else SQUOTE in
  String q (repr_body q s ++ chr q).

(** [str(v)] as used for a field and in a formatted line. *)
Definition str (v : value) : string :=
  match v with
  | VStr s => s
  | VNone => "None"
  | VList l => "[" ++ join ", " (map repr l) ++ "]"
  end.

(** The text the writer emits for a field: [None] is written as the empty
    field, a string as it is, anything else through [str]. *)
Definition field_text (v : value) : string :=
  match v with
  | VNone => EmptyString
  | _ => str v
  end.

(** [writer.writerow(row)]: the text written to the file.  A row that
    would come out empty although it has a field (one field, empty) is
    written as a quoted empty field. *)
Definition writerow (row : list value) : string :=
  let rec := join (chr COMMA) (map (fun v => join_append (field_text v)) row) in
  (if (0 <? length row)%nat && is_empty rec
   then String DQUOTE (chr DQUOTE) else rec) ++ crlf.

(** [DictWriter._dict_to_list] with the defaults [restval = ''] and
    [extrasaction = 'raise']. *)
Definition dict_to_list (fieldnames : list key) (rowdict : dict) : exn + list value :=
  if forallb (fun k => List.existsb (key_eqb k) fieldnames) (keys rowdict)
  then inr (map (fun k => default (VStr EmptyString) (get k rowdict)) fieldnames)
  else inl ValueError.

(** The row [DictWriter.writeheader] writes: the field names themselves,
    the key [None] as the value [None]. *)
Definition header_row (fieldnames : list key) : list value :=
  map (fun k => match k with Some s => VStr s | None => VNone end) fieldnames.

End Csv.

(** ** Text files *)

Module TextIO.
Import Text.

(** The lines of a file opened for reading in text mode with the default
    [newline=None]: each of LF, CR and CR LF ends a line and is handed over
    as LF; a last line without terminator is handed over as it is. *)
Fixpoint readlines_from (cur : string) (s : string) : list string :=
  match s with
  | EmptyString => if is_empty cur then [] else [cur]
  | String c rest =>
      if Ascii.eqb c LF then snoc cur LF :: readlines_from EmptyString rest
      else if Ascii.eqb c CR then
        match rest with
        | String c' rest' =>
            if Ascii.eqb c' LF then snoc cur LF :: readlines_from EmptyString rest'
            else snoc cur LF :: readlines_from EmptyString rest
        | EmptyString => snoc cur LF :: readlines_from EmptyString rest
        end
      else readlines_from (snoc cur c) rest
  end.

Definition readlines (content : string) : list string :=
  readlines_from EmptyString content.

End TextIO.

(** ** pm/jira_sync.py *)

Module JiraSync.
Import Text Py.

(** *** Standard output

    One constructor per [print] of the script, holding the values that are
    formatted into the line. *)
Inductive line :=
| StartingEpicSync
| SkippingEpic (title jira_id : value)
| FoundNewEpic (title : value)
| EpicKey (dry_run : bool) (new_jira_key : string)
| UpdatedEpics
| EpicSyncComplete
| StartingBacklogSync
| SkippingSubtask (description jira_id : value)
| FoundNewItem (description : value)
| IssueKey (dry_run : bool) (new_jira_key : string)
| UpdatedBacklog
| BacklogSyncComplete
| StartingSyncProcess
| PlaceholderNote
| RunForRealNote
| SyncProcessFinished.

(** The text of a printed line. *)
Definition render (l : line) : string :=
  match l with
  | StartingEpicSync => "--- Starting Epic Sync ---"
  | SkippingEpic t j =>
      "Skipping Epic '" ++ Csv.str t ++ "' - already has Jira ID: " ++ Csv.str j
  | FoundNewEpic t => "Found new Epic to sync: '" ++ Csv.str t ++ "'"
  | EpicKey dry k =>
      "  - " ++ (if dry then "[Dry Run] Would create" else "Successfully created")
      ++ " Jira Epic with key: " ++ k
  | UpdatedEpics => "Successfully updated epics.csv with new Jira IDs."
  | EpicSyncComplete => "--- Epic Sync Complete ---" ++ lf
  | StartingBacklogSync => "--- Starting Sprint Backlog Sync ---"
  | SkippingSubtask d j =>
      "Skipping Subtask '" ++ Csv.str d ++ "...' - already has Jira ID: " ++ Csv.str j
  | FoundNewItem d => "Found new backlog item to sync: '" ++ Csv.str d ++ "...'"
  | IssueKey dry k =>
      "  - " ++ (if dry then "[Dry Run] Would create" else "Successfully created")
      ++ " Jira Issue with key: " ++ k
  | UpdatedBacklog => "Successfully updated sprint_backlog.csv with new Jira IDs."
  | BacklogSyncComplete => "--- Sprint Backlog Sync Complete ---"
  | StartingSyncProcess => "Starting Jira sync process (Dry Run Mode)..."
  | PlaceholderNote =>
      "NOTE: This script is a placeholder and will not make real changes."
  | RunForRealNote =>
      "To run for real, you would need to implement the Jira API calls and run with a different flag."
      ++ lf
  | SyncProcessFinished => lf ++ "Sync process finished."
  end.

(** *** The world the script runs in *)

Record world := mkWorld {
  environ : gmap string string;   (* os.environ *)
  files : gmap string string;     (* path to content *)
  stdout : list line
}.

Definition M (A : Type) : Type := world -> (exn + A) * world.

Definition ret {A} (a : A) : M A := fun w => (inr a, w).
Definition raise {A} (e : exn) : M A := fun w => (inl e, w).
Definition bind {A B} (m : M A) (f : A -> M B) : M B :=
  fun w => match m w with
           | (inl e, w') => (inl e, w')
           | (inr a, w') => f a w'
           end.
Definition lift {A} (r : exn + A) : M A := fun w => (r, w).

Notation "x <- m ;; k" := (bind m (fun x => k))
  (at level 90, m at next level, right associativity).
Notation "m ;;; k" := (bind m (fun _ => k))
  (at level 90, right associativity).

Definition print (ls : list line) : M unit :=
  fun w => (inr tt, mkWorld (environ w) (files w) (stdout w ++ ls)).

(** [open(path, mode='w')] where the open succeeds: the file is created or
    emptied.  The open that fails is in [Device], below. *)
Definition open_w (path : string) : M unit :=
  fun w => (inr tt, mkWorld (environ w) (<[path := EmptyString]> (files w)) (stdout w)).

(** [outfile.write(text)] on the file opened at [path]. *)
Definition write (path text : string) : M unit :=
  fun w => (inr tt,
            mkWorld (environ w)
                    (<[path := String.append (default EmptyString (files w !! path)) text]> (files w))
                    (stdout w)).

(** *** Configuration *)

Definition JIRA_SERVER : string := "https://your-domain.atlassian.net".
Definition JIRA_USERNAME : string := "your-email@example.com".
(** [os.environ.get("JIRA_API_TOKEN")], evaluated when the module is
    loaded. *)
Definition JIRA_API_TOKEN (w : world) : option string :=
  environ w !! "JIRA_API_TOKEN".

Definition EPICS_CSV_PATH : string := "pm/epics.csv".
Definition BACKLOG_CSV_PATH : string := "pm/sprint_backlog.csv".

(** *** The two file operations *)

(** [read_csv_data] on a source of ASCII text.  A source whose bytes are
    not valid UTF-8, for which the decoding of the open raises
    [UnicodeDecodeError], is outside the model. *)
Definition read_csv_data (file_path : string) : M (list dict) :=
  fun w =>
    match files w !! file_path with
    | None => (inl (FileNotFoundError file_path), w)
    | Some content => (Csv.DictReader (TextIO.readlines content), w)
    end.

(** [writer.writerows(data)]: the rows are converted and written one after
    the other, so a record that cannot be converted stops the writing after
    the rows before it. *)
Fixpoint writerows (file_path : string) (fieldnames : list key) (data : list dict)
  : M unit :=
  match data with
  | [] => ret tt
  | rowdict :: rest =>
      row <- lift (Csv.dict_to_list fieldnames rowdict) ;;
      write file_path (Csv.writerow row) ;;;
      writerows file_path fieldnames rest
  end.

Definition update_csv_data (file_path : string) (data : list dict)
  (fieldnames : list key) : M unit :=
  open_w file_path ;;;
  write file_path (Csv.writerow (Csv.header_row fieldnames)) ;;;
  writerows file_path fieldnames data.

(** *** The loop over the records

    The body of the loop for one record gives the lines it prints and
    either the record as it leaves it or the exception it raises. *)

Definition JiraTicketID : key := Some "JiraTicketID".

(** [v.replace(old, new)]: only a string has the method. *)
Definition str_replace (old : ascii) (new : string) (v : value) : exn + string :=
  match v with
  | VStr s => inr (replace_char old new s)
  | VNone | VList _ => inl AttributeError
  end.

(** [v[:40]]: [None] cannot be sliced. *)
Definition slice40 (v : value) : exn + value :=
  match v with
  | VStr s => inr (VStr (take 40 s))
  | VList l => inr (VList (List.firstn 40 l))
  | VNone => inl TypeError
  end.

Definition sync_epic (dry_run : bool) (epic : dict) : list line * (exn + dict) :=
  if truthy (get JiraTicketID epic) then
    match (title <-! getitem "Title" epic ;;
           jira_id <-! getitem "JiraTicketID" epic ;;
           inr (SkippingEpic title jira_id)) with
    | inl e => ([], inl e)
    | inr l => ([l], inr epic)
    end
  else
    match getitem "Title" epic with
    | inl e => ([], inl e)
    | inr title =>
        match (epic_id <-! getitem "EpicID" epic ;; str_replace "E" "10" epic_id) with
        | inl e => ([FoundNewEpic title], inl e)
        | inr digits =>
            let new_jira_key := ("FER-" ++ digits)%string in
            ([FoundNewEpic title; EpicKey dry_run new_jira_key],
             inr (set JiraTicketID (VStr new_jira_key) epic))
        end
    end.

Definition sync_backlog_item (dry_run : bool) (item : dict) : list line * (exn + dict) :=
  if truthy (get JiraTicketID item) then
    match (description <-! getitem "SubtaskDescription" item ;;
           short <-! slice40 description ;;
           jira_id <-! getitem "JiraTicketID" item ;;
           inr (SkippingSubtask short jira_id)) with
    | inl e => ([], inl e)
    | inr l => ([l], inr item)
    end
  else
    match (description <-! getitem "SubtaskDescription" item ;; slice40 description) with
    | inl e => ([], inl e)
    | inr short =>
        match (subtask_id <-! getitem "SubtaskID" item ;;
               s <-! str_replace "T" EmptyString subtask_id ;;
               inr (replace_char "." "0" s)) with
        | inl e => ([FoundNewItem short], inl e)
        | inr digits =>
            let new_jira_key := ("FER-" ++ digits)%string in
            ([FoundNewItem short; IssueKey dry_run new_jira_key],
             inr (set JiraTicketID (VStr new_jira_key) item))
        end
    end.

(** [for record in data: body]: the lines printed, one block per record
    the loop got to, and the records as the loop leaves them, or the
    exception that ended it.  Nothing reads standard output while the loop
    runs, so a run appends the blocks to it once the loop is over. *)
Fixpoint for_each (body : dict -> list line * (exn + dict)) (data : list dict)
  : list (list line) * (exn + list dict) :=
  match data with
  | [] => ([], inr [])
  | d :: rest =>
      match body d with
      | (ls, inl e) => ([ls], inl e)
      | (ls, inr d') =>
          let '(blocks, r) := for_each body rest in
          (ls :: blocks, d's <-! r ;; inr (d' :: d's))
      end
  end.

(** *** The two entry points *)

Definition sync_epics_to_jira (dry_run : bool) : M unit :=
  print [StartingEpicSync] ;;;
  epics_data <- read_csv_data EPICS_CSV_PATH ;;
  let '(blocks, r) := for_each (sync_epic dry_run) epics_data in
  print (List.concat blocks) ;;;
  epics_data <- lift r ;;
  (if negb dry_run then
     match epics_data with
     | [] => raise IndexError
     | first :: _ =>
         update_csv_data EPICS_CSV_PATH epics_data (keys first) ;;;
         print [UpdatedEpics]
     end
   else ret tt) ;;;
  print [EpicSyncComplete].

Definition sync_backlog_to_jira (dry_run : bool) : M unit :=
  print [StartingBacklogSync] ;;;
  backlog_data <- read_csv_data BACKLOG_CSV_PATH ;;
  let '(blocks, r) := for_each (sync_backlog_item dry_run) backlog_data in
  print (List.concat blocks) ;;;
  backlog_data <- lift r ;;
  (if negb dry_run then
     match backlog_data with
     | [] => raise IndexError
     | first :: _ =>
         update_csv_data BACKLOG_CSV_PATH backlog_data (keys first) ;;;
         print [UpdatedBacklog]
     end
   else ret tt) ;;;
  print [BacklogSyncComplete].

(** The script run as a program: its three opening lines, both
    collections in dry-run mode, its closing line. *)
Definition main : M unit :=
  print [StartingSyncProcess; PlaceholderNote; RunForRealNote] ;;;
  sync_epics_to_jira true ;;;
  sync_backlog_to_jira true ;;;
  print [SyncProcessFinished].

End JiraSync.

(** ** Destinations that cannot be opened

    [open(path, mode='w')] raises an [OSError] when the file cannot be
    opened for writing: [FileNotFoundError] when the directory of [path]
    does not exist, for one.  Which paths cannot be opened, and with which
    exception, is given by [blocked]: [blocked path = Some e] when opening
    [path] for writing raises [e].  The exception is raised before the
    file is touched.  Failures of the device once the file is open are
    not modelled. *)

Module Device.
Import Py JiraSync.

Definition open_w (blocked : string -> option exn) (path : string) : M unit :=
  fun w =>
    match blocked path with
    | Some e => (inl e, w)
    | None => JiraSync.open_w path w
    end.

(** [update_csv_data] with the open that can fail. *)
Definition update_csv_data (blocked : string -> option exn) (file_path : string)
  (data : list dict) (fieldnames : list key) : M unit :=
  open_w blocked file_path ;;;
  write file_path (Csv.writerow (Csv.header_row fieldnames)) ;;;
  writerows file_path fieldnames data.

(** Only the directory-less path of the example cannot be opened. *)
Definition no_such_directory (path : string) : option exn :=
  if String.eqb path "nodir/epics.csv"
  then Some (FileNotFoundError "nodir/epics.csv")
  else None.

End Device.

(** ** What a run reports

    The script reports by printing; the outcome of a record is read off
    the block of lines its iteration printed.  A skipped record prints its
    one "Skipping" line, a record given a key prints its "Found" line and
    the line with the key.  The placeholder for the Jira call is the
    derivation of the simulated key, reported by the line with the key. *)

Module Report.
Import Py JiraSync.

Inductive SyncOutcome :=
| Skipped (existing_id : value)
| Created (new_id : string).

Definition outcome (block : list line) : option SyncOutcome :=
  match block with
  | [SkippingEpic _ j] => Some (Skipped j)
  | [SkippingSubtask _ j] => Some (Skipped j)
  | [FoundNewEpic _; EpicKey _ k] => Some (Created k)
  | [FoundNewItem _; IssueKey _ k] => Some (Created k)
  | _ => None
  end.

(** The lines that stand for a ticket creation. *)
Definition is_creation (l : line) : bool :=
  match l with
  | EpicKey _ _ | IssueKey _ _ => true
  | _ => false
  end.

(** The number of ticket creations among printed lines. *)
Definition creations (ls : list line) : nat :=
  length (List.filter is_creation ls).

Definition is_created (o : option SyncOutcome) : bool :=
  match o with
  | Some (Created _) => true
  | _ => false
  end.

End Report.

(** ** The two collections, side by side

    [sync_epics_to_jira] and [sync_backlog_to_jira] have the same shape;
    the properties below are stated once for both. *)

Module Run.
Import Py JiraSync.

Inductive collection := Epics | Backlog.

Definition source_path (c : collection) : string :=
  match c with
  | Epics => EPICS_CSV_PATH
  | Backlog => BACKLOG_CSV_PATH
  end.

Definition loop_body (c : collection) (dry_run : bool) : dict -> list line * (exn + dict) :=
  match c with
  | Epics => sync_epic dry_run
  | Backlog => sync_backlog_item dry_run
  end.

Definition sync (c : collection) (dry_run : bool) : M unit :=
  match c with
  | Epics => sync_epics_to_jira dry_run
  | Backlog => sync_backlog_to_jira dry_run
  end.

Definition starting (c : collection) : line :=
  match c with Epics => StartingEpicSync | Backlog => StartingBacklogSync end.

Definition updated (c : collection) : line :=
  match c with Epics => UpdatedEpics | Backlog => UpdatedBacklog end.

Definition complete (c : collection) : line :=
  match c with Epics => EpicSyncComplete | Backlog => BacklogSyncComplete end.

(** The world after more lines were printed. *)
Definition printed (ls : list line) (w : world) : world :=
  mkWorld (environ w) (files w) (stdout w ++ ls).

(** The world with another process environment. *)
Definition with_environ (env : gmap string string) (w : world) : world :=
  mkWorld env (files w) (stdout w).

(** The world with one file set to a content. *)
Definition with_file (path content : string) (w : world) : world :=
  mkWorld (environ w) (<[path := content]> (files w)) (stdout w).

End Run.

(** ** Sources used as examples *)

Module Examples.
Import Text Py JiraSync.

Definition epics_header : string := "EpicID,Title,JiraTicketID".

(** The world in which [pm/epics.csv] holds [content], with no other file,
    an empty environment and nothing printed yet. *)
Definition epics_world (content : string) : world :=
  mkWorld ∅ {[ EPICS_CSV_PATH := content ]} [].

(** One epic that already has the ticket FER-999. *)
Definition synced_source : string :=
  epics_header ++ crlf ++ "E7,Search,FER-999" ++ crlf.

Definition synced_record : dict :=
  [(Some "EpicID", VStr "E7"); (Some "Title", VStr "Search");
   (Some "JiraTicketID", VStr "FER-999")].

(** The two epics of the example scenario: E1 without a ticket, E2 with
    the ticket FER-10. *)
Definition scenario_source : string :=
  epics_header ++ crlf ++ "E1,Login flow," ++ crlf ++ "E2,Billing,FER-10" ++ crlf.

Definition scenario : list dict :=
  [ [(Some "EpicID", VStr "E1"); (Some "Title", VStr "Login flow");
     (Some "JiraTicketID", VStr EmptyString)];
    [(Some "EpicID", VStr "E2"); (Some "Title", VStr "Billing");
     (Some "JiraTicketID", VStr "FER-10")] ].

(** The scenario after a pass: E1 carries the simulated key. *)
Definition scenario_synced : list dict :=
  [ [(Some "EpicID", VStr "E1"); (Some "Title", VStr "Login flow");
     (Some "JiraTicketID", VStr "FER-101")];
    [(Some "EpicID", VStr "E2"); (Some "Title", VStr "Billing");
     (Some "JiraTicketID", VStr "FER-10")] ].

(** Every epic already has its ticket; the lines end in LF. *)
Definition synced_lf_source : string :=
  epics_header ++ lf ++ "E2,Billing,FER-10" ++ lf.

(** The second row has one field more than the header. *)
Definition long_row_source : string :=
  epics_header ++ crlf ++ "E1,Login flow," ++ crlf
  ++ "E2,Billing,FER-10,extra" ++ crlf.

Definition long_row_data : list dict :=
  [ [(Some "EpicID", VStr "E1"); (Some "Title", VStr "Login flow");
     (Some "JiraTicketID", VStr EmptyString)];
    [(Some "EpicID", VStr "E2"); (Some "Title", VStr "Billing");
     (Some "JiraTicketID", VStr "FER-10"); (None, VList ["extra"])] ].

(** The second row has one field less than the header. *)
Definition short_row_source : string :=
  epics_header ++ crlf ++ "E1,Login flow," ++ crlf ++ "E2,Billing" ++ crlf.

End Examples.

(** ** Records with their required fields

    The fields the loop reads from a record: its descriptive field and its
    local id, each present and a string. *)

Module Schema.
Import Py JiraSync Run.

Definition is_str (o : option value) : bool :=
  match o with
  | Some (VStr _) => true
  | _ => false
  end.

Definition well_formed (c : collection) (r : dict) : bool :=
  match c with
  | Epics => is_str (get (Some "Title") r) && is_str (get (Some "EpicID") r)
  | Backlog =>
      is_str (get (Some "SubtaskDescription") r) && is_str (get (Some "SubtaskID") r)
  end.

End Schema.

(** ** The text a write leaves behind *)

Module Store.
Import Text Py.

(** A record is written when all its keys are among the field names. *)
Definition convertible (fieldnames : list key) (d : dict) : bool :=
  forallb (fun k => List.existsb (key_eqb k) fieldnames) (keys d).

(** The line written for a record. *)
Definition row_text (fieldnames : list key) (d : dict) : string :=
  Csv.writerow (map (fun k => default (VStr EmptyString) (get k d)) fieldnames).

(** The records before the first one that cannot be written. *)
Fixpoint writable_prefix (fieldnames : list key) (data : list dict) : list dict :=
  match data with
  | [] => []
  | d :: rest =>
      if convertible fieldnames d then d :: writable_prefix fieldnames rest else []
  end.

Definition rows_text (fieldnames : list key) (data : list dict) : string :=
  Text.concat (map (row_text fieldnames) data).

(** The header line followed by one line per record. *)
Definition csv_text (fieldnames : list key) (data : list dict) : string :=
  Csv.writerow (Csv.header_row fieldnames) ++ rows_text fieldnames data.

End Store.

(** ** Sources in the writer's own form, and the round trip *)

Module RoundTrip.
Import Text Py JiraSync.

(** A field the writer leaves unquoted and the reader accepts: no comma,
    no quote, no CR, no LF, and within the field size limit. *)
Definition plain (f : string) : bool :=
  negb (Text.existsb Csv.needs_quoting f)
  && (N.of_nat (String.length f) <=? Csv.field_limit)%N.

(** A line of plain fields, ended by CR LF. *)
Definition plain_line (row : list string) : string :=
  join (chr COMMA) row ++ crlf.

Definition plain_text (rows : list (list string)) : string :=
  Text.concat (map plain_line rows).

(** The line of a row as the reader is given it: ended by LF. *)
Definition text_line (row : list string) : string :=
  join (chr COMMA) row ++ lf.

(** The states of the reader outside quotes and before the end of the
    line. *)
Definition unquoted (s : Csv.ParserState) : bool :=
  match s with
  | Csv.START_RECORD | Csv.START_FIELD | Csv.IN_FIELD => true
  | _ => false
  end.

(** The record of a row under a header with as many distinct names. *)
Definition record_of (header row : list string) : dict :=
  map (fun kv => (Some (fst kv), VStr (snd kv))) (combine header row).

(** A row of [n] plain fields whose line is not blank. *)
Definition canonical_row (n : nat) (row : list string) : bool :=
  (length row =? n)%nat && forallb plain row
  && negb (is_empty (join (chr COMMA) row)).

(** Loading a source and saving what was loaded to the same place, with
    the field names taken from the first record as the sync functions
    do. *)
Definition save_after_load (path : string) : M unit :=
  data <- read_csv_data path ;;
  match data with
  | [] => raise IndexError
  | first :: _ => update_csv_data path data (keys first)
  end.

End RoundTrip.

(** ** Vocabulary of the further properties *)

Module Further.
Import Text Py JiraSync.

(** A printed line with its dry-run flag set to [b]; only the two lines
    that report a key have the flag. *)
Definition with_dry_run (b : bool) (l : line) : line :=
  match l with
  | EpicKey _ k => EpicKey b k
  | IssueKey _ k => IssueKey b k
  | _ => l
  end.

(** A record that has no ticket id yet, as the loop tests it. *)
Definition unsynced (r : dict) : bool := negb (truthy (get JiraTicketID r)).

(** The message of the reader's one error on the lines of a text file. *)
Definition field_limit_error : exn :=
  CsvError "field larger than field limit (131072)".

(** The fields of a record the loop reads besides [JiraTicketID]. *)
Definition description_field (c : Run.collection) : string :=
  match c with
  | Run.Epics => "Title"
  | Run.Backlog => "SubtaskDescription"
  end.

Definition id_field (c : Run.collection) : string :=
  match c with
  | Run.Epics => "EpicID"
  | Run.Backlog => "SubtaskID"
  end.

(** The simulated key the loop derives from the local id of a record. *)
Definition key_of (c : Run.collection) (id : string) : string :=
  match c with
  | Run.Epics => "FER-" ++ replace_char "E" "10" id
  | Run.Backlog => "FER-" ++ replace_char "." "0" (replace_char "T" EmptyString id)
  end.

(** A field short enough for the key derived from it to stay within the
    field size limit. *)
Definition roomy (f : string) : bool :=
  (N.of_nat (2 * String.length f + 4) <=? Csv.field_limit)%N.

(** The text of rows of plain fields with lines ended by LF. *)
Definition lf_text (rows : list (list string)) : string :=
  Text.concat (map RoundTrip.text_line rows).

(** A text of ASCII characters: every one below 128, where the bytes of
    the file and the characters of its text are the same. *)
Definition is_ascii (s : string) : bool :=
  negb (Text.existsb (fun c => (127 <? nat_of_ascii c)%nat) s).


(** The reader is not in the state after the end of a line. *)
Definition not_eating (r : Csv.ReaderObj) : Prop := Csv.state r <> Csv.EAT_CRNL.

End Further.

(** * Properties *)

Import Text Py JiraSync Report Run Schema Store RoundTrip.

(** ** Dictionaries *)

Lemma key_eqb_eq (a b : key) : key_eqb a b = true <-> a = b.
Proof.
  destruct a as [x|], b as [y|]; simpl; try (split; congruence).
  rewrite String.eqb_eq. split; congruence.
Qed.

Lemma key_eqb_refl (a : key) : key_eqb a a = true.
Proof. by apply key_eqb_eq. Qed.

Lemma key_eqb_neq (a b : key) : a <> b -> key_eqb a b = false.
Proof.
  intros H. destruct (key_eqb a b) eqn:E; [|done].
  by apply key_eqb_eq in E.
Qed.

Lemma get_set_eq (k : key) (v : value) (d : dict) : get k (set k v d) = Some v.
Proof.
  induction d as [|[k' v'] d IH]; simpl.
  - by rewrite key_eqb_refl.
  - destruct (key_eqb k' k) eqn:E; simpl; rewrite E; [done | exact IH].
Qed.

Lemma get_set_ne (k k' : key) (v : value) (d : dict) :
  k <> k' -> get k' (set k v d) = get k' d.
Proof.
  intros Hne. induction d as [|[k0 v0] d IH]; simpl.
  - by rewrite key_eqb_neq.
  - destruct (key_eqb k0 k) eqn:E; simpl.
    + apply key_eqb_eq in E. subst k0. by rewrite key_eqb_neq.
    + by rewrite IH.
Qed.

Lemma getitem_set_ne (name : string) (k : key) (v : value) (d : dict) :
  k <> Some name -> getitem name (set k v d) = getitem name d.
Proof. intros H. unfold getitem. by rewrite get_set_ne. Qed.

Lemma getitem_of_get (name : string) (d : dict) (v : value) :
  get (Some name) d = Some v -> getitem name d = inr v.
Proof. intros H. unfold getitem. by rewrite H. Qed.

Lemma truthy_Some (o : option value) : truthy o = true -> exists v, o = Some v.
Proof. destruct o as [v|]; [eauto | done]. Qed.

(** ** The world under the operations *)

Lemma bind_run {A B} (m : M A) (f : A -> M B) (w : world) :
  bind m f w = match m w with
               | (inl e, w') => (inl e, w')
               | (inr a, w') => f a w'
               end.
Proof. reflexivity. Qed.

Lemma read_csv_data_world (p : string) (w : world) : (read_csv_data p w).2 = w.
Proof. unfold read_csv_data. by destruct (files w !! p). Qed.


Lemma read_csv_data_present (p content : string) (w : world) :
  files w !! p = Some content ->
  read_csv_data p w = (Csv.DictReader (TextIO.readlines content), w).
Proof. intros H. unfold read_csv_data. by rewrite H. Qed.

(** ** Dry run *)

Ltac run_step :=
  match goal with
  | |- context [match files ?w !! ?p with _ => _ end] =>
      destruct (files w !! p) eqn:?; simpl
  | |- context [match Csv.DictReader ?l with _ => _ end] =>
      destruct (Csv.DictReader l) eqn:?; simpl
  | |- context [for_each ?b ?d] =>
      destruct (for_each b d) as [? [?|?]] eqn:?; simpl
  end.

Ltac run_sync f :=
  unfold f, bind, print, read_csv_data, lift, ret, raise; simpl;
  repeat run_step.

(** C2. A run in dry-run mode leaves every file as it was, whatever the
    source holds and however many of its records had no ticket id; this
    holds for both collections and for the script run as a program. *)
Theorem dry_run_writes_nothing (w : world) :
  files (sync_epics_to_jira true w).2 = files w /\
  files (sync_backlog_to_jira true w).2 = files w /\
  files (main w).2 = files w.
Proof.
  assert (He : forall w0, files (sync_epics_to_jira true w0).2 = files w0).
  { intros w0. run_sync sync_epics_to_jira; reflexivity. }
  assert (Hb : forall w0, files (sync_backlog_to_jira true w0).2 = files w0).
  { intros w0. run_sync sync_backlog_to_jira; reflexivity. }
  split; [apply He | split; [apply Hb |]].
  unfold main, bind, print. simpl.
  set (w0 := mkWorld (environ w) (files w)
               (stdout w ++ [StartingSyncProcess; PlaceholderNote; RunForRealNote])).
  specialize (He w0). specialize (Hb (sync_epics_to_jira true w0).2).
  destruct (sync_epics_to_jira true w0) as [[e|[]] w1]; simpl in *; [exact He|].
  destruct (sync_backlog_to_jira true w1) as [[e|[]] w2]; simpl in *;
    rewrite Hb; exact He.
Qed.

(** ** The shape of a run *)

Lemma sync_unfold (c : collection) (dry_run : bool) (w : world) :
  sync c dry_run w =
  match files w !! source_path c with
  | None => (inl (FileNotFoundError (source_path c)), printed [starting c] w)
  | Some content =>
      match Csv.DictReader (TextIO.readlines content) with
      | inl e => (inl e, printed [starting c] w)
      | inr data =>
          let '(blocks, r) := for_each (loop_body c dry_run) data in
          let w1 := printed (starting c :: List.concat blocks) w in
          match r with
          | inl e => (inl e, w1)
          | inr data' =>
              if dry_run then (inr tt, printed [complete c] w1)
              else match data' with
                   | [] => (inl IndexError, w1)
                   | first :: _ =>
                       match update_csv_data (source_path c) data' (keys first) w1 with
                       | (inl e, w2) => (inl e, w2)
                       | (inr _, w2) => (inr tt, printed [updated c; complete c] w2)
                       end
                   end
          end
      end
  end.
Proof.
  destruct c; simpl;
    [run_sync sync_epics_to_jira | run_sync sync_backlog_to_jira];
    unfold printed; simpl; try reflexivity.
  all: try (rewrite <- ?app_assoc; reflexivity).
  all: destruct dry_run; simpl; [by rewrite <- !app_assoc |].
  all: match goal with |- context [match ?l with [] => _ | _ :: _ => _ end] =>
         destruct l as [|first rest]; simpl; [by rewrite <- ?app_assoc |] end.
  all: rewrite <- ?app_assoc; simpl.
  all: match goal with |- context [update_csv_data ?p ?d ?k ?w0] =>
         destruct (update_csv_data p d k w0) as [[?|?] ?]; simpl end.
  all: by rewrite <- ?app_assoc.
Qed.

(** ** Writing a collection back *)

Lemma append_nil_r (s : string) : (s ++ EmptyString)%string = s.
Proof. induction s as [|a s IH]; [done|]. cbv [String.append]. fold String.append. by rewrite IH. Qed.

Lemma append_assoc (s1 s2 s3 : string) :
  ((s1 ++ s2) ++ s3)%string = (s1 ++ (s2 ++ s3))%string.
Proof.
  induction s1 as [|a s1 IH]; [done|].
  change (String a ((s1 ++ s2) ++ s3)%string = String a (s1 ++ (s2 ++ s3))%string).
  by rewrite IH.
Qed.

Lemma world_eta (w : world) : mkWorld (environ w) (files w) (stdout w) = w.
Proof. by destruct w. Qed.

Lemma with_file_same (p content : string) (w : world) :
  files w !! p = Some content -> with_file p content w = w.
Proof.
  intros H. unfold with_file. rewrite insert_id by done. apply world_eta.
Qed.

Lemma dict_to_list_convertible (fieldnames : list key) (d : dict) :
  Csv.dict_to_list fieldnames d =
  if convertible fieldnames d
  then inr (map (fun k => default (VStr EmptyString) (get k d)) fieldnames)
  else inl ValueError.
Proof. reflexivity. Qed.

Lemma writerows_spec (p : string) (fieldnames : list key) (data : list dict) :
  forall (w : world) (content : string),
  files w !! p = Some content ->
  writerows p fieldnames data w =
  ((if forallb (convertible fieldnames) data then inr tt else inl ValueError),
   with_file p (content ++ rows_text fieldnames (writable_prefix fieldnames data)) w).
Proof.
  induction data as [|d rest IH]; intros w content Hp.
  - simpl. unfold ret, rows_text. simpl. rewrite append_nil_r.
    by rewrite with_file_same.
  - simpl. unfold bind, lift. rewrite dict_to_list_convertible.
    destruct (convertible fieldnames d) eqn:Hc; simpl.
    + rewrite Hp. simpl.
      erewrite IH; [|simpl; apply lookup_insert_eq].
      f_equal. unfold with_file; simpl. rewrite insert_insert_eq.
      unfold rows_text. simpl. fold (row_text fieldnames d).
      by rewrite append_assoc.
    + unfold rows_text. simpl. rewrite append_nil_r. by rewrite with_file_same.
Qed.

(** What [update_csv_data] returns and what it leaves in the file. *)
Lemma update_csv_data_spec (p : string) (data : list dict) (fieldnames : list key)
  (w : world) :
  update_csv_data p data fieldnames w =
  ((if forallb (convertible fieldnames) data then inr tt else inl ValueError),
   with_file p (csv_text fieldnames (writable_prefix fieldnames data)) w).
Proof.
  unfold update_csv_data, bind, open_w. 
  unfold write at 1. simpl. rewrite lookup_insert_eq. simpl.
  erewrite writerows_spec; [|simpl; apply lookup_insert_eq].
  f_equal. unfold with_file; simpl. by rewrite !insert_insert_eq.
Qed.

Lemma writable_prefix_all (fieldnames : list key) (data : list dict) :
  forallb (convertible fieldnames) data = true ->
  writable_prefix fieldnames data = data.
Proof.
  induction data as [|d rest IH]; [done|]. simpl.
  intros [-> H]%andb_prop. by rewrite IH.
Qed.

(** ** The loop *)

Section ForEach.
Variable body : dict -> list line * (exn + dict).

Lemma for_each_lookup (data : list dict) :
  forall (blocks : list (list line)) (data' : list dict),
  for_each body data = (blocks, inr data') ->
  forall (i : nat) (d : dict), data !! i = Some d ->
  exists ls d', body d = (ls, inr d') /\ blocks !! i = Some ls /\ data' !! i = Some d'.
Proof.
  induction data as [|d0 rest IH]; intros blocks data' H i d Hi; [done|].
  simpl in H. destruct (body d0) as [ls0 [e|d0']] eqn:Hb; [done|].
  destruct (for_each body rest) as [bs [e|ds]] eqn:Hr; simpl in H; [done|].
  injection H as <- <-.
  destruct i as [|i]; simpl in *.
  - injection Hi as <-. eauto.
  - eapply IH; eauto.
Qed.

Lemma for_each_length (data : list dict) :
  forall (blocks : list (list line)) (data' : list dict),
  for_each body data = (blocks, inr data') ->
  length blocks = length data /\ length data' = length data.
Proof.
  induction data as [|d0 rest IH]; intros blocks data' H; simpl in H.
  - by injection H as <- <-.
  - destruct (body d0) as [ls0 [e|d0']] eqn:Hb; [done|].
    destruct (for_each body rest) as [bs [e|ds]] eqn:Hr; simpl in H; [done|].
    injection H as <- <-. destruct (IH _ _ eq_refl) as [E1 E2]. simpl. by rewrite E1, E2.
Qed.

(** How the loop unfolds on a record that its body accepts. *)
Lemma for_each_cons_ok (d d' : dict) (ls : list line) (rest : list dict) :
  body d = (ls, inr d') ->
  for_each body (d :: rest) =
  ((ls :: (for_each body rest).1),
   (d's <-! (for_each body rest).2 ;; inr (d' :: d's))).
Proof.
  intros H. simpl. rewrite H. by destruct (for_each body rest).
Qed.
End ForEach.

(** ** One record *)

Lemma JiraTicketID_ne (name : string) :
  name <> "JiraTicketID" -> JiraTicketID <> Some name.
Proof. unfold JiraTicketID. congruence. Qed.

(** A record that has a ticket id is left as it is, and nothing is
    created for it, whether or not its line can be printed. *)
Lemma body_skips (c : collection) (dry_run : bool) (r : dict) :
  truthy (get JiraTicketID r) = true ->
  creations (loop_body c dry_run r).1 = 0 /\
  forall r', (loop_body c dry_run r).2 = inr r' ->
    r' = r /\
    exists j, get JiraTicketID r = Some j /\
              outcome (loop_body c dry_run r).1 = Some (Skipped j).
Proof.
  intros Ht. destruct (truthy_Some _ Ht) as [j Hj].
  destruct c; simpl; unfold sync_epic, sync_backlog_item; rewrite Ht.
  - rewrite (getitem_of_get _ _ _ Hj).
    destruct (getitem "Title" r) as [e|t]; simpl; [done|].
    split; [done|]. intros r' [= <-]. eauto.
  - rewrite (getitem_of_get _ _ _ Hj).
    destruct (getitem "SubtaskDescription" r) as [e|t]; simpl; [done|].
    destruct (slice40 t) as [e|t']; simpl; [done|].
    split; [done|]. intros r' [= <-]. eauto.
Qed.

Lemma fer_key_truthy (digits : string) :
  truthy (Some (VStr ("FER-" ++ digits))) = true.
Proof. reflexivity. Qed.

(** A record the body accepted has a ticket id afterwards, and the body
    skips it from then on. *)
Lemma body_then_skips (c : collection) (dry_run dry_run' : bool) (r r' : dict)
  (ls : list line) :
  loop_body c dry_run r = (ls, inr r') ->
  exists j ls', get JiraTicketID r' = Some j /\
                truthy (get JiraTicketID r') = true /\
                loop_body c dry_run' r' = (ls', inr r') /\
                outcome ls' = Some (Skipped j) /\
                creations ls' = 0.
Proof.
  destruct c; simpl; unfold sync_epic, sync_backlog_item.
  - destruct (truthy (get JiraTicketID r)) eqn:Ht.
    + destruct (truthy_Some _ Ht) as [j Hj].
      rewrite (getitem_of_get _ _ _ Hj).
      destruct (getitem "Title" r) as [e|t] eqn:Hti; simpl; [done|].
      intros [= <- <-]. exists j. eexists.
      rewrite Ht, Hti, (getitem_of_get _ _ _ Hj). simpl. eauto.
    + destruct (getitem "Title" r) as [e|t] eqn:Hti; simpl; [done|].
      destruct (getitem "EpicID" r) as [e|v]; simpl; [done|].
      destruct (str_replace "E" "10" v) as [e|digits]; simpl; [done|].
      intros [= <- <-]. eexists. eexists.
      rewrite !get_set_eq, getitem_set_ne, Hti by by apply JiraTicketID_ne.
      unfold getitem. change (Some "JiraTicketID") with JiraTicketID.
      rewrite get_set_eq. simpl. eauto.
  - destruct (truthy (get JiraTicketID r)) eqn:Ht.
    + destruct (truthy_Some _ Ht) as [j Hj].
      rewrite (getitem_of_get _ _ _ Hj).
      destruct (getitem "SubtaskDescription" r) as [e|t] eqn:Hti; simpl; [done|].
      destruct (slice40 t) as [e|t'] eqn:Hsl; simpl; [done|].
      intros [= <- <-]. exists j. eexists.
      rewrite Ht, Hti, (getitem_of_get _ _ _ Hj). simpl. rewrite Hsl. simpl. eauto.
    + destruct (getitem "SubtaskDescription" r) as [e|t] eqn:Hti; simpl; [done|].
      destruct (slice40 t) as [e|t'] eqn:Hsl; simpl; [done|].
      destruct (getitem "SubtaskID" r) as [e|v]; simpl; [done|].
      destruct (str_replace "T" EmptyString v) as [e|digits]; simpl; [done|].
      intros [= <- <-]. eexists. eexists.
      rewrite !get_set_eq, getitem_set_ne, Hti by by apply JiraTicketID_ne.
      simpl. rewrite Hsl. simpl.
      unfold getitem. change (Some "JiraTicketID") with JiraTicketID.
      rewrite get_set_eq. simpl. eauto.
Qed.

(** ** Records that already have a ticket *)

Lemma is_str_inv (o : option value) : is_str o = true -> exists s, o = Some (VStr s).
Proof. destruct o as [[s| |l]|]; try done. eauto. Qed.

(** The body of the loop accepts a record that has its required fields. *)
Lemma body_accepts (c : collection) (dry_run : bool) (r : dict) :
  well_formed c r = true ->
  exists ls r', loop_body c dry_run r = (ls, inr r').
Proof.
  destruct c; simpl; intros [H1 H2]%andb_prop;
    apply is_str_inv in H1 as [t Ht]; apply is_str_inv in H2 as [n Hn];
    unfold sync_epic, sync_backlog_item;
    rewrite (getitem_of_get _ _ _ Ht), (getitem_of_get _ _ _ Hn); simpl;
    destruct (truthy (get JiraTicketID r)) eqn:Hj; eauto;
    destruct (truthy_Some _ Hj) as [j Hj'];
    rewrite (getitem_of_get _ _ _ Hj'); simpl; eauto.
Qed.

(** A pass over records that have their required fields runs to its end. *)
Lemma pass_completes (c : collection) (dry_run : bool) (data : list dict) :
  Forall (fun r => well_formed c r = true) data ->
  exists blocks data', for_each (loop_body c dry_run) data = (blocks, inr data').
Proof.
  induction 1 as [|r rest Hr _ IH]; simpl; [eauto|].
  destruct (body_accepts c dry_run r Hr) as (ls & r' & ->).
  destruct IH as (bs & ds & ->). simpl. eauto.
Qed.

(** What a run prints once its pass has run to its end: its first line,
    the blocks of the pass, and closing lines without a creation. *)
Lemma sync_stdout (c : collection) (dry_run : bool) (w : world) (content : string)
  (data data' : list dict) (blocks : list (list line)) :
  files w !! source_path c = Some content ->
  Csv.DictReader (TextIO.readlines content) = inr data ->
  for_each (loop_body c dry_run) data = (blocks, inr data') ->
  exists closing,
    stdout (sync c dry_run w).2
    = stdout w ++ starting c :: List.concat blocks ++ closing /\
    creations closing = 0.
Proof.
  intros Hf Hr Hl. rewrite sync_unfold, Hf, Hr, Hl. cbv beta iota zeta.
  destruct dry_run.
  - exists [complete c]. split; [|by destruct c].
    simpl. by rewrite <- app_assoc.
  - destruct data' as [|first rest].
    + exists []. split; [|done]. simpl. by rewrite app_nil_r.
    + rewrite update_csv_data_spec.
      destruct (forallb (convertible (keys first)) (first :: rest)).
      * exists [updated c; complete c]. split; [|by destruct c].
        simpl. by rewrite <- app_assoc.
      * exists []. split; [|done]. simpl. by rewrite app_nil_r.
Qed.

(** C1. In a run over a loaded collection whose records have their
    required fields, the pass runs to its end and a record whose
    [JiraTicketID] is non-empty is skipped: the block of lines printed for
    it reports [Skipped] with exactly the id it had and holds no creation,
    and the record is unchanged in the collection the pass leaves.  The run
    prints the blocks of the pass between its first line and closing lines
    that hold no creation. *)
Theorem already_synced_record_is_skipped
  (c : collection) (dry_run : bool) (w : world) (content : string)
  (data : list dict) (i : nat) (r : dict) :
  files w !! source_path c = Some content ->
  Csv.DictReader (TextIO.readlines content) = inr data ->
  Forall (fun r => well_formed c r = true) data ->
  data !! i = Some r ->
  truthy (get JiraTicketID r) = true ->
  exists blocks data' j block closing,
    for_each (loop_body c dry_run) data = (blocks, inr data') /\
    stdout (sync c dry_run w).2
    = stdout w ++ starting c :: List.concat blocks ++ closing /\
    creations closing = 0 /\
    get JiraTicketID r = Some j /\
    blocks !! i = Some block /\
    outcome block = Some (Skipped j) /\
    creations block = 0 /\
    data' !! i = Some r.
Proof.
  intros Hf Hr Hwf Hi Ht.
  destruct (pass_completes c dry_run data Hwf) as (blocks & data' & Hloop).
  destruct (sync_stdout c dry_run w content data data' blocks Hf Hr Hloop)
    as (closing & Hout & Hclosing).
  destruct (for_each_lookup _ _ _ _ Hloop _ _ Hi) as (ls & r' & Hb & Hbl & Hd).
  destruct (body_skips c dry_run r Ht) as [Hc Hs].
  rewrite Hb in Hc, Hs. simpl in Hc, Hs.
  destruct (Hs r' eq_refl) as (-> & j & Hj & Ho).
  exists blocks, data', j, ls, closing. done.
Qed.

(** The record loaded with the ticket FER-999 is reported as
    [Skipped "FER-999"], with no creation. *)
Lemma already_synced_record_is_skipped_witness :
  get JiraTicketID Examples.synced_record = Some (VStr "FER-999") /\
  stdout (sync Epics true (Examples.epics_world Examples.synced_source)).2
  = [StartingEpicSync; SkippingEpic (VStr "Search") (VStr "FER-999");
     EpicSyncComplete] /\
  exists blocks data' j block closing,
    for_each (loop_body Epics true) [Examples.synced_record] = (blocks, inr data') /\
    stdout (sync Epics true (Examples.epics_world Examples.synced_source)).2
    = stdout (Examples.epics_world Examples.synced_source)
      ++ starting Epics :: List.concat blocks ++ closing /\
    creations closing = 0 /\
    get JiraTicketID Examples.synced_record = Some j /\
    blocks !! 0 = Some block /\
    outcome block = Some (Skipped j) /\
    creations block = 0 /\
    data' !! 0 = Some Examples.synced_record.
Proof.
  split; [reflexivity|]. split; [reflexivity|].
  apply (already_synced_record_is_skipped Epics true
           (Examples.epics_world Examples.synced_source) Examples.synced_source
           [Examples.synced_record] 0 Examples.synced_record).
  - reflexivity.
  - reflexivity.
  - repeat constructor.
  - reflexivity.
  - reflexivity.
Defined.

Lemma creations_app (l1 l2 : list line) :
  creations (l1 ++ l2) = creations l1 + creations l2.
Proof. unfold creations. by rewrite List.filter_app, length_app. Qed.

(** C3. After a pass that ran to its end, every record has a non-empty
    [JiraTicketID]; a second pass over the records it left skips every one
    of them, reports no [Created] outcome, makes no creation and changes
    nothing. *)
Theorem second_pass_creates_nothing
  (c : collection) (dry_run dry_run' : bool) (data data' : list dict)
  (blocks : list (list line)) :
  for_each (loop_body c dry_run) data = (blocks, inr data') ->
  exists blocks',
    for_each (loop_body c dry_run') data' = (blocks', inr data') /\
    length blocks' = length data' /\
    Forall (fun r => truthy (get JiraTicketID r) = true) data' /\
    Forall (fun b => exists j, outcome b = Some (Skipped j)) blocks' /\
    Forall (fun b => is_created (outcome b) = false) blocks' /\
    creations (List.concat blocks') = 0.
Proof.
  revert blocks data'.
  induction data as [|d rest IH]; intros blocks data' H; simpl in H.
  - injection H as <- <-. exists []. simpl. repeat split; constructor.
  - destruct (loop_body c dry_run d) as [ls [e|d']] eqn:Hb; [done|].
    destruct (for_each (loop_body c dry_run) rest) as [bs [e|ds]] eqn:Hr;
      simpl in H; [done|].
    injection H as <- <-.
    destruct (IH _ _ eq_refl) as (bs' & Hloop & Hlen & Hids & Hsk & Hnc & Hcr).
    destruct (body_then_skips c dry_run dry_run' d d' ls Hb)
      as (j & ls' & Hj & Ht & Hb' & Ho & Hc).
    exists (ls' :: bs').
    rewrite (for_each_cons_ok _ _ _ _ _ Hb'), Hloop. simpl.
    repeat split.
    + by rewrite Hlen.
    + by constructor.
    + constructor; eauto.
    + constructor; [by rewrite Ho | done].
    + rewrite creations_app. lia.
Qed.

Lemma second_pass_creates_nothing_witness :
  for_each (loop_body Epics false) Examples.scenario
  = ([[FoundNewEpic (VStr "Login flow"); EpicKey false "FER-101"];
      [SkippingEpic (VStr "Billing") (VStr "FER-10")]],
     inr Examples.scenario_synced) /\
  exists blocks',
    for_each (loop_body Epics true) Examples.scenario_synced
    = (blocks', inr Examples.scenario_synced) /\
    length blocks' = length Examples.scenario_synced /\
    Forall (fun r => truthy (get JiraTicketID r) = true) Examples.scenario_synced /\
    Forall (fun b => exists j, outcome b = Some (Skipped j)) blocks' /\
    Forall (fun b => is_created (outcome b) = false) blocks' /\
    creations (List.concat blocks') = 0.
Proof.
  split; [reflexivity|].
  apply (second_pass_creates_nothing Epics false true Examples.scenario
           Examples.scenario_synced
           [[FoundNewEpic (VStr "Login flow"); EpicKey false "FER-101"];
            [SkippingEpic (VStr "Billing") (VStr "FER-10")]]).
  reflexivity.
Defined.

(** ** What a save leaves *)

Lemma writable_prefix_short (fieldnames : list key) (data : list dict) :
  forallb (convertible fieldnames) data = false ->
  length (writable_prefix fieldnames data) < length data.
Proof.
  induction data as [|d rest IH]; [done|]. simpl.
  destruct (convertible fieldnames d); simpl; [|lia].
  intros H. apply IH in H. lia.
Qed.

Lemma device_update_unblocked (blocked : string -> option exn) (p : string)
  (data : list dict) (fieldnames : list key) (w : world) :
  blocked p = None ->
  Device.update_csv_data blocked p data fieldnames w
  = update_csv_data p data fieldnames w.
Proof.
  intros H. unfold Device.update_csv_data, update_csv_data, bind, Device.open_w.
  by rewrite H.
Qed.

Lemma device_update_blocked (blocked : string -> option exn) (p : string)
  (data : list dict) (fieldnames : list key) (w : world) (e : exn) :
  blocked p = Some e ->
  Device.update_csv_data blocked p data fieldnames w = (inl e, w).
Proof.
  intros H. unfold Device.update_csv_data, bind, Device.open_w. by rewrite H.
Qed.

(** C6 (as amended). [update_csv_data] writes in place, not through a
    temporary file.  When the destination cannot be opened for writing,
    it raises the exception of the open and the world, the destination
    with it, is as it was.  When the destination is opened, it is
    emptied, then the header and the records are written in order: if
    every record can be written the save returns and the destination
    holds the whole text; otherwise it raises [ValueError] and the
    destination holds the header and the records before the first one that
    cannot be written, fewer than were given, in place of what it held.
    Nothing else in the world changes.  After a save, failed or not, the
    collection can be saved again, and the world is then as that later
    save alone leaves it. *)
Theorem save_writes_in_place (blocked : string -> option exn) (p : string)
  (data : list dict) (fieldnames : list key) (w : world) :
  match blocked p with
  | Some e => Device.update_csv_data blocked p data fieldnames w = (inl e, w)
  | None =>
      files (Device.update_csv_data blocked p data fieldnames w).2
      = <[p := csv_text fieldnames (writable_prefix fieldnames data)]> (files w) /\
      environ (Device.update_csv_data blocked p data fieldnames w).2 = environ w /\
      stdout (Device.update_csv_data blocked p data fieldnames w).2 = stdout w /\
      (Device.update_csv_data blocked p data fieldnames w).1
      = (if forallb (convertible fieldnames) data then inr tt else inl ValueError) /\
      (if forallb (convertible fieldnames) data
       then writable_prefix fieldnames data = data
       else length (writable_prefix fieldnames data) < length data)
  end /\
  forall fieldnames' : list key,
    Device.update_csv_data blocked p data fieldnames'
      (Device.update_csv_data blocked p data fieldnames w).2
    = Device.update_csv_data blocked p data fieldnames' w.
Proof.
  destruct (blocked p) as [e|] eqn:Hb.
  - split; [by apply device_update_blocked|]. intros fieldnames'.
    by rewrite (device_update_blocked _ _ _ fieldnames _ _ Hb).
  - rewrite (device_update_unblocked _ _ _ _ _ Hb), update_csv_data_spec. simpl.
    split.
    + split; [done|]. split; [done|]. split; [done|]. split; [done|].
      destruct (forallb (convertible fieldnames) data) eqn:H.
      * by apply writable_prefix_all.
      * by apply writable_prefix_short.
    + intros fieldnames'.
      rewrite !(device_update_unblocked _ _ _ _ _ Hb), !update_csv_data_spec.
      f_equal. unfold with_file. simpl. by rewrite insert_insert_eq.
Qed.

(** A save to a path whose directory does not exist raises the
    [FileNotFoundError] of the open and changes nothing. *)
Lemma save_writes_in_place_witness :
  Device.update_csv_data Device.no_such_directory "nodir/epics.csv"
    Examples.scenario [Some "EpicID"; Some "Title"; Some "JiraTicketID"]
    (Examples.epics_world Examples.scenario_source)
  = (inl (FileNotFoundError "nodir/epics.csv"),
     Examples.epics_world Examples.scenario_source).
Proof.
  exact (proj1 (save_writes_in_place Device.no_such_directory "nodir/epics.csv"
                  Examples.scenario [Some "EpicID"; Some "Title"; Some "JiraTicketID"]
                  (Examples.epics_world Examples.scenario_source))).
Defined.

(** A save that fails half way leaves neither the previous content nor
    the whole new content at the destination. *)
Lemma save_is_not_atomic :
  let w := Examples.epics_world Examples.long_row_source in
  let save :=
    Device.update_csv_data Device.no_such_directory EPICS_CSV_PATH
      Examples.long_row_data [Some "EpicID"; Some "Title"; Some "JiraTicketID"] w in
  read_csv_data EPICS_CSV_PATH w = (inr Examples.long_row_data, w) /\
  save = update_csv_data EPICS_CSV_PATH Examples.long_row_data
           [Some "EpicID"; Some "Title"; Some "JiraTicketID"] w /\
  save.1 = inl ValueError /\
  files save.2 !! EPICS_CSV_PATH
  = Some (Examples.epics_header ++ crlf ++ "E1,Login flow," ++ crlf)%string /\
  files save.2 !! EPICS_CSV_PATH <> files w !! EPICS_CSV_PATH.
Proof. vm_compute. repeat split; congruence. Qed.

(** ** Commit mode *)

(** C7 (as amended). In commit mode the collection is written back
    whenever the pass runs to its end on a collection that is not empty,
    whether or not a record was created: the source then holds the text of
    the records the pass left, up to the first that cannot be written, and
    when all can be written the run ends normally after reporting the
    update. *)
Theorem commit_writes_whenever_pass_ends
  (c : collection) (w : world) (content : string) (data : list dict)
  (blocks : list (list line)) (first : dict) (rest : list dict) :
  files w !! source_path c = Some content ->
  Csv.DictReader (TextIO.readlines content) = inr data ->
  for_each (loop_body c false) data = (blocks, inr (first :: rest)) ->
  files (sync c false w).2 !! source_path c
  = Some (csv_text (keys first) (writable_prefix (keys first) (first :: rest))) /\
  (forallb (convertible (keys first)) (first :: rest) = true ->
   sync c false w
   = (inr tt,
      printed [updated c; complete c]
        (with_file (source_path c) (csv_text (keys first) (first :: rest))
           (printed (starting c :: List.concat blocks) w)))).
Proof.
  intros Hf Hr Hl. rewrite sync_unfold, Hf, Hr, Hl. cbv beta iota zeta.
  rewrite update_csv_data_spec.
  destruct (forallb (convertible (keys first)) (first :: rest)) eqn:Hc.
  - split; [apply lookup_insert_eq|]. intros _.
    by rewrite (writable_prefix_all _ _ Hc).
  - split; [apply lookup_insert_eq | intros [=]].
Qed.

Lemma commit_writes_whenever_pass_ends_witness :
  let w := Examples.epics_world Examples.synced_lf_source in
  files w !! source_path Epics = Some Examples.synced_lf_source /\
  creations (stdout (sync Epics false w).2) = 0 /\
  files (sync Epics false w).2 !! source_path Epics
  = Some (Examples.epics_header ++ crlf ++ "E2,Billing,FER-10" ++ crlf)%string.
Proof.
  split; [reflexivity|]. split; [reflexivity|].
  refine (eq_trans
    (proj1 (commit_writes_whenever_pass_ends Epics
       (Examples.epics_world Examples.synced_lf_source) Examples.synced_lf_source
       [ [(Some "EpicID", VStr "E2"); (Some "Title", VStr "Billing");
          (Some "JiraTicketID", VStr "FER-10")] ]
       [[SkippingEpic (VStr "Billing") (VStr "FER-10")]]
       [(Some "EpicID", VStr "E2"); (Some "Title", VStr "Billing");
        (Some "JiraTicketID", VStr "FER-10")] []
       eq_refl eq_refl eq_refl)) _).
  reflexivity.
Defined.

(** A commit run in which every record was skipped still rewrites the
    source, here with other bytes than it held. *)
Lemma commit_rewrites_clean_collection :
  let w := Examples.epics_world Examples.synced_lf_source in
  (sync_epics_to_jira false w).1 = inr tt /\
  stdout (sync_epics_to_jira false w).2
  = [StartingEpicSync; SkippingEpic (VStr "Billing") (VStr "FER-10");
     UpdatedEpics; EpicSyncComplete] /\
  files (sync_epics_to_jira false w).2 !! EPICS_CSV_PATH
  = Some (Examples.epics_header ++ crlf ++ "E2,Billing,FER-10" ++ crlf)%string /\
  files (sync_epics_to_jira false w).2 !! EPICS_CSV_PATH
  <> files w !! EPICS_CSV_PATH.
Proof. vm_compute. repeat split; congruence. Qed.

(** C10. When the collection read from the source has no record, a run
    in commit mode raises [IndexError] where it takes the field names from
    the first record: nothing is written and the run does not end
    normally.  The same source in dry-run mode ends normally, having
    printed only its first and last line. *)
Theorem empty_collection_commit_raises (c : collection) (w : world) (content : string) :
  files w !! source_path c = Some content ->
  Csv.DictReader (TextIO.readlines content) = inr [] ->
  sync c false w = (inl IndexError, printed [starting c] w) /\
  files (sync c false w).2 = files w /\
  sync c true w = (inr tt, printed [starting c; complete c] w).
Proof.
  intros Hf Hr. rewrite !sync_unfold, Hf, Hr. simpl.
  repeat split. unfold printed. simpl. by rewrite <- app_assoc.
Qed.

(** An empty file and a file with only its header row are two such
    sources. *)
Lemma empty_collection_commit_raises_witness :
  Csv.DictReader (TextIO.readlines EmptyString) = inr [] /\
  Csv.DictReader (TextIO.readlines (Examples.epics_header ++ crlf)) = inr [] /\
  (sync Epics false (Examples.epics_world (Examples.epics_header ++ crlf))
   = (inl IndexError,
      printed [starting Epics] (Examples.epics_world (Examples.epics_header ++ crlf))) /\
   files (sync Epics false (Examples.epics_world (Examples.epics_header ++ crlf))).2
   = files (Examples.epics_world (Examples.epics_header ++ crlf)) /\
   sync Epics true (Examples.epics_world (Examples.epics_header ++ crlf))
   = (inr tt,
      printed [starting Epics; complete Epics]
        (Examples.epics_world (Examples.epics_header ++ crlf)))).
Proof.
  split; [reflexivity|]. split; [reflexivity|].
  apply (empty_collection_commit_raises Epics
           (Examples.epics_world (Examples.epics_header ++ crlf))
           (Examples.epics_header ++ crlf)); reflexivity.
Defined.

(** ** The credential *)

Lemma printed_with_environ (env : gmap string string) (ls : list line) (w : world) :
  printed ls (with_environ env w) = with_environ env (printed ls w).
Proof. reflexivity. Qed.

Lemma with_file_with_environ (env : gmap string string) (p t : string) (w : world) :
  with_file p t (with_environ env w) = with_environ env (with_file p t w).
Proof. reflexivity. Qed.

(** C8 (as amended). The environment, and with it [JIRA_API_TOKEN], is
    never consulted by a run: with any other environment the run returns
    the same result, prints the same lines and leaves the same files. *)
Theorem environment_is_not_consulted
  (c : collection) (dry_run : bool) (env : gmap string string) (w : world) :
  sync c dry_run (with_environ env w)
  = ((sync c dry_run w).1, with_environ env (sync c dry_run w).2).
Proof.
  rewrite !sync_unfold. simpl.
  destruct (files w !! source_path c) as [content|]; [|done].
  destruct (Csv.DictReader (TextIO.readlines content)) as [e|data]; [done|].
  destruct (for_each (loop_body c dry_run) data) as [blocks [e|data']]; [done|].
  cbv zeta. destruct dry_run; [done|].
  destruct data' as [|first rest]; [done|].
  rewrite !update_csv_data_spec, printed_with_environ, with_file_with_environ.
  by destruct (forallb (convertible (keys first)) (first :: rest)).
Qed.

(** Without the credential the run goes ahead: the record without a
    ticket is given its key and the file is rewritten. *)
Lemma missing_credential_goes_unnoticed :
  let w := Examples.epics_world Examples.scenario_source in
  JIRA_API_TOKEN w = None /\
  (sync_epics_to_jira false w).1 = inr tt /\
  stdout (sync_epics_to_jira false w).2
  = [StartingEpicSync; FoundNewEpic (VStr "Login flow"); EpicKey false "FER-101";
     SkippingEpic (VStr "Billing") (VStr "FER-10"); UpdatedEpics; EpicSyncComplete] /\
  creations (stdout (sync_epics_to_jira false w).2) = 1.
Proof. vm_compute. repeat split. Qed.

(** ** Creating *)

(** The key given to the first epic of the scenario is FER-101, not
    FER-11. *)
Lemma scenario_key_is_not_FER_11 :
  outcome <$> ((for_each (sync_epic false) Examples.scenario).1 !! 0)
  = Some (Some (Created "FER-101")) /\
  outcome <$> ((for_each (sync_epic false) Examples.scenario).1 !! 0)
  <> Some (Some (Created "FER-11")).
Proof. vm_compute. split; congruence. Qed.

(** C4 (as amended). A record with its required fields and without a
    ticket id is given a key [k]: the body reports [Created k] and leaves
    the record with [JiraTicketID] set to [k]; for an epic [k] is "FER-"
    followed by the epic id with every E replaced by 10.  On the scenario
    the outcomes are [Created "FER-101"] for E1 and [Skipped "FER-10"] for E2,
    and after a commit run the source holds E1 with the ticket FER-101. *)
Theorem created_key_is_recorded :
  (forall (c : collection) (dry_run : bool) (r : dict),
     well_formed c r = true ->
     truthy (get JiraTicketID r) = false ->
     exists ls k,
       loop_body c dry_run r = (ls, inr (set JiraTicketID (VStr k) r)) /\
       outcome ls = Some (Created k) /\
       get JiraTicketID (set JiraTicketID (VStr k) r) = Some (VStr k) /\
       (forall id, c = Epics -> get (Some "EpicID") r = Some (VStr id) ->
                   k = ("FER-" ++ replace_char "E" "10" id)%string)) /\
  (let w := Examples.epics_world Examples.scenario_source in
   read_csv_data EPICS_CSV_PATH w = (inr Examples.scenario, w) /\
   outcome <$> (for_each (sync_epic false) Examples.scenario).1
   = [Some (Created "FER-101"); Some (Skipped (VStr "FER-10"))] /\
   (for_each (sync_epic false) Examples.scenario).2 = inr Examples.scenario_synced /\
   (sync_epics_to_jira false w).1 = inr tt /\
   (read_csv_data EPICS_CSV_PATH (sync_epics_to_jira false w).2).1
   = inr Examples.scenario_synced).
Proof.
  split; [|vm_compute; repeat split].
  intros c dry_run r Hwf Hj.
  destruct c; simpl in *; apply andb_prop in Hwf as [H1 H2];
    apply is_str_inv in H1 as [t Ht]; apply is_str_inv in H2 as [n Hn];
    unfold sync_epic, sync_backlog_item;
    rewrite Hj, (getitem_of_get _ _ _ Ht), (getitem_of_get _ _ _ Hn); simpl;
    eexists; eexists; (split; [reflexivity|]); (split; [reflexivity|]);
    (split; [apply get_set_eq|]); intros id; try done.
  intros _ Hid. congruence.
Qed.

Lemma created_key_is_recorded_witness :
  well_formed Epics [(Some "EpicID", VStr "E1"); (Some "Title", VStr "Login flow");
                     (Some "JiraTicketID", VStr EmptyString)] = true /\
  exists ls k,
    loop_body Epics false
      [(Some "EpicID", VStr "E1"); (Some "Title", VStr "Login flow");
       (Some "JiraTicketID", VStr EmptyString)]
    = (ls, inr (set JiraTicketID (VStr k)
                  [(Some "EpicID", VStr "E1"); (Some "Title", VStr "Login flow");
                   (Some "JiraTicketID", VStr EmptyString)])) /\
    outcome ls = Some (Created k) /\
    get JiraTicketID
      (set JiraTicketID (VStr k)
         [(Some "EpicID", VStr "E1"); (Some "Title", VStr "Login flow");
          (Some "JiraTicketID", VStr EmptyString)]) = Some (VStr k) /\
    (forall id, Epics = Epics ->
       get (Some "EpicID")
         [(Some "EpicID", VStr "E1"); (Some "Title", VStr "Login flow");
          (Some "JiraTicketID", VStr EmptyString)] = Some (VStr id) ->
       k = ("FER-" ++ replace_char "E" "10" id)%string).
Proof.
  split; [reflexivity|].
  apply (proj1 created_key_is_recorded Epics false
           [(Some "EpicID", VStr "E1"); (Some "Title", VStr "Login flow");
            (Some "JiraTicketID", VStr EmptyString)]); reflexivity.
Defined.

(** ** Loading *)



(** ** Round trip *)

(** Saving what was loaded from a source whose lines end in LF gives
    other bytes: the lines written end in CR LF. *)
Lemma save_after_load_changes_line_ends :
  let w := Examples.epics_world Examples.synced_lf_source in
  (save_after_load EPICS_CSV_PATH w).1 = inr tt /\
  files (save_after_load EPICS_CSV_PATH w).2 !! EPICS_CSV_PATH
  = Some (Examples.epics_header ++ crlf ++ "E2,Billing,FER-10" ++ crlf)%string /\
  files (save_after_load EPICS_CSV_PATH w).2 !! EPICS_CSV_PATH
  <> files w !! EPICS_CSV_PATH.
Proof. vm_compute. repeat split; congruence. Qed.

(** *** Text *)

Lemma append_cons (a : ascii) (s t : string) :
  (String a s ++ t)%string = String a (s ++ t)%string.
Proof. reflexivity. Qed.

Lemma append_nil_l (s : string) : (EmptyString ++ s)%string = s.
Proof. reflexivity. Qed.

Lemma snoc_append (s : string) (c : ascii) : snoc s c = (s ++ chr c)%string.
Proof.
  induction s as [|a s IH]; [done|]. simpl. by rewrite IH, append_cons.
Qed.

Lemma snoc_append_cons (s t : string) (c : ascii) :
  (snoc s c ++ t)%string = (s ++ String c t)%string.
Proof. by rewrite snoc_append, append_assoc. Qed.

Lemma existsb_append (p : ascii -> bool) (s t : string) :
  Text.existsb p (s ++ t) = Text.existsb p s || Text.existsb p t.
Proof.
  induction s as [|a s IH]; [done|].
  rewrite append_cons. simpl. by rewrite IH, orb_assoc.
Qed.

Lemma is_empty_append (s t : string) :
  is_empty (s ++ t) = is_empty s && is_empty t.
Proof. by destruct s. Qed.

Lemma length_append (s t : string) :
  String.length (s ++ t) = String.length s + String.length t.
Proof.
  induction s as [|a s IH]; [done|]. rewrite append_cons. simpl. by rewrite IH.
Qed.

(** *** Lines *)

Lemma readlines_from_line (s : string) :
  forall (cur rest : string),
  Text.existsb Csv.is_newline s = false ->
  TextIO.readlines_from cur (s ++ crlf ++ rest)
  = (cur ++ s ++ lf)%string :: TextIO.readlines_from EmptyString rest.
Proof.
  induction s as [|c s IH]; intros cur rest Hs.
  - rewrite append_nil_l. unfold crlf. rewrite !append_cons, append_nil_l.
    simpl. by rewrite snoc_append.
  - simpl in Hs. apply orb_false_elim in Hs as [Hc Hs].
    unfold Csv.is_newline in Hc. apply orb_false_elim in Hc as [Hlf Hcr].
    rewrite append_cons. simpl. rewrite Hlf, Hcr.
    rewrite IH by done. by rewrite snoc_append_cons.
Qed.

Lemma needs_quoting_newline (c : ascii) :
  Csv.needs_quoting c = false -> Csv.is_newline c = false.
Proof.
  unfold Csv.needs_quoting, Csv.is_newline.
  destruct (Ascii.eqb c LF), (Ascii.eqb c CR); rewrite ?orb_true_r; done.
Qed.

Lemma plain_no_special (f : string) :
  plain f = true -> Text.existsb Csv.needs_quoting f = false.
Proof. unfold plain. intros [H _]%andb_prop. by apply negb_true_iff in H. Qed.

Lemma plain_within_limit (f : string) :
  plain f = true -> (N.of_nat (String.length f) <= Csv.field_limit)%N.
Proof. unfold plain. intros [_ H]%andb_prop. by apply N.leb_le. Qed.

Lemma no_special_no_newline (s : string) :
  Text.existsb Csv.needs_quoting s = false -> Text.existsb Csv.is_newline s = false.
Proof.
  induction s as [|a s IH]; [done|]. simpl.
  intros [Ha Hs]%orb_false_elim. by rewrite (needs_quoting_newline _ Ha), IH.
Qed.

Lemma join_cons2 (sep f g : string) (rest : list string) :
  join sep (f :: g :: rest) = (f ++ sep ++ join sep (g :: rest))%string.
Proof. reflexivity. Qed.

Lemma join_no_newline (row : list string) :
  forallb plain row = true ->
  Text.existsb Csv.is_newline (join (chr COMMA) row) = false.
Proof.
  induction row as [|f [|g rest] IH]; [done| |].
  - simpl. rewrite andb_true_r. intros H.
    by apply no_special_no_newline, plain_no_special.
  - intros [Hf Hr]%andb_prop. rewrite join_cons2, !existsb_append.
    rewrite (no_special_no_newline _ (plain_no_special _ Hf)), (IH Hr). done.
Qed.

Lemma readlines_plain_text (rows : list (list string)) :
  Forall (fun row => forallb plain row = true) rows ->
  TextIO.readlines (plain_text rows) = map text_line rows.
Proof.
  unfold TextIO.readlines, plain_text.
  induction 1 as [|row rows Hrow _ IH]; [done|].
  simpl. unfold plain_line at 1. rewrite append_assoc.
  rewrite readlines_from_line by by apply join_no_newline.
  by rewrite IH.
Qed.

(** *** The reader on plain lines *)

Lemma feed_app (s1 : string) :
  forall (r : Csv.ReaderObj) (s2 : string),
  Csv.feed r (s1 ++ s2) = (r' <-! Csv.feed r s1 ;; Csv.feed r' s2).
Proof.
  induction s1 as [|a s1 IH]; intros r s2; [done|].
  rewrite append_cons. simpl.
  destruct (Csv.parse_process_char r (Csv.Chr a)) as [e|r']; simpl; [done|].
  apply IH.
Qed.

Lemma needs_quoting_inv (c : ascii) :
  Csv.needs_quoting c = false ->
  Ascii.eqb c COMMA = false /\ Ascii.eqb c DQUOTE = false /\
  Csv.is_newline c = false.
Proof.
  intros H. split; [|split; [|by apply needs_quoting_newline]];
    unfold Csv.needs_quoting in H;
    destruct (Ascii.eqb c COMMA), (Ascii.eqb c DQUOTE); done.
Qed.

Lemma parse_add_char_ok (r : Csv.ReaderObj) (c : ascii) :
  (N.of_nat (String.length (Csv.field r)) < Csv.field_limit)%N ->
  Csv.parse_add_char r c
  = inr (Csv.mkReader (Csv.state r) (Csv.fields r) (snoc (Csv.field r) c)).
Proof.
  intros H. unfold Csv.parse_add_char.
  by rewrite (proj2 (N.leb_gt _ _) H).
Qed.

(** A plain character outside quotes is added to the current field. *)
Lemma process_plain_char (r : Csv.ReaderObj) (c : ascii) :
  Csv.needs_quoting c = false ->
  unquoted (Csv.state r) = true ->
  (N.of_nat (String.length (Csv.field r)) < Csv.field_limit)%N ->
  Csv.parse_process_char r (Csv.Chr c)
  = inr (Csv.mkReader Csv.IN_FIELD (Csv.fields r) (snoc (Csv.field r) c)).
Proof.
  intros (Hc & Hq & Hn)%needs_quoting_inv Hst Hlen.
  unfold Csv.parse_process_char.
  destruct (Csv.state r) eqn:Est; try done; simpl;
    unfold Csv.start_field; rewrite ?Hn, ?Hq, ?Hc; simpl;
    rewrite ?parse_add_char_ok by done; simpl; try done.
  by rewrite Est.
Qed.

Lemma feed_plain (s : string) :
  forall (r : Csv.ReaderObj),
  Text.existsb Csv.needs_quoting s = false ->
  unquoted (Csv.state r) = true ->
  (N.of_nat (String.length (Csv.field r) + String.length s) <= Csv.field_limit)%N ->
  Csv.feed r s
  = inr (Csv.mkReader (if is_empty s then Csv.state r else Csv.IN_FIELD)
           (Csv.fields r) (Csv.field r ++ s)).
Proof.
  induction s as [|c s IH]; intros r Hs Hst Hlen.
  - simpl. rewrite append_nil_r. by destruct r.
  - simpl in Hs. apply orb_false_elim in Hs as [Hc Hs]. simpl in Hlen.
    simpl. rewrite process_plain_char by (done || lia). simpl.
    rewrite IH; simpl; [| done | done | rewrite snoc_append, length_append; simpl; lia].
    rewrite snoc_append_cons. by destruct (is_empty s).
Qed.

Lemma process_comma (r : Csv.ReaderObj) :
  unquoted (Csv.state r) = true ->
  Csv.parse_process_char r (Csv.Chr COMMA)
  = inr (Csv.mkReader Csv.START_FIELD (Csv.fields r ++ [Csv.field r]) EmptyString).
Proof.
  intros H. unfold Csv.parse_process_char.
  destruct (Csv.state r) eqn:E; try done; try reflexivity.
  cbv [Csv.start_field Csv.is_newline Csv.parse_save_field]. simpl. by rewrite E.
Qed.

Lemma process_newline (r : Csv.ReaderObj) :
  Csv.state r = Csv.START_FIELD \/ Csv.state r = Csv.IN_FIELD ->
  Csv.parse_process_char r (Csv.Chr LF)
  = inr (Csv.mkReader Csv.EAT_CRNL (Csv.fields r ++ [Csv.field r]) EmptyString).
Proof.
  unfold Csv.parse_process_char. intros [E | E]; rewrite E; reflexivity.
Qed.

Lemma text_line_cons2 (f g : string) (rest : list string) :
  text_line (f :: g :: rest) = (f ++ String COMMA (text_line (g :: rest)))%string.
Proof.
  unfold text_line. rewrite join_cons2. by rewrite !append_assoc.
Qed.

(** The characters of the line of a row of plain fields take the reader
    through the fields of the row. *)
Lemma feed_row (row : list string) :
  forall (r : Csv.ReaderObj),
  row <> [] ->
  forallb plain row = true ->
  Csv.field r = EmptyString ->
  Csv.state r = Csv.START_FIELD \/
  (Csv.state r = Csv.START_RECORD /\ is_empty (join (chr COMMA) row) = false) ->
  Csv.feed r (text_line row)
  = inr (Csv.mkReader Csv.EAT_CRNL (Csv.fields r ++ row) EmptyString).
Proof.
  induction row as [|f [|g rest] IH]; intros r Hne Hpl Hfield Hst; [done| |].
  - simpl in Hpl. rewrite andb_true_r in Hpl.
    unfold text_line. simpl join. rewrite feed_app.
    rewrite feed_plain; simpl.
    + rewrite Hfield, append_nil_l.
      rewrite process_newline; [done|]. simpl.
      destruct Hst as [-> | [-> He]]; [destruct (is_empty f); auto|].
      simpl in He. rewrite He. auto.
    + by apply plain_no_special.
    + by destruct Hst as [-> | [-> _]].
    + rewrite Hfield. simpl. by apply plain_within_limit.
  - apply andb_prop in Hpl as [Hf Hpl].
    rewrite text_line_cons2, feed_app.
    rewrite feed_plain; simpl.
    + rewrite Hfield, append_nil_l.
      rewrite process_comma; simpl.
      * rewrite IH; simpl; [by rewrite <- app_assoc | done | done | done | auto].
      * destruct Hst as [-> | [-> _]]; by destruct (is_empty f).
    + by apply plain_no_special.
    + by destruct Hst as [-> | [-> _]].
    + rewrite Hfield. simpl. by apply plain_within_limit.
Qed.

Lemma canonical_row_inv (n : nat) (row : list string) :
  canonical_row n row = true ->
  length row = n /\ forallb plain row = true /\
  is_empty (join (chr COMMA) row) = false /\ row <> [].
Proof.
  unfold canonical_row. intros [[Hn Hp]%andb_prop He]%andb_prop.
  apply Nat.eqb_eq in Hn. apply negb_true_iff in He.
  repeat split; try done. by intros ->.
Qed.

Lemma feed_line_row (n : nat) (row : list string) :
  canonical_row n row = true ->
  Csv.feed_line Csv.parse_reset (text_line row)
  = inr (Csv.mkReader Csv.START_RECORD row EmptyString).
Proof.
  intros (_ & Hp & He & Hne)%canonical_row_inv.
  unfold Csv.feed_line. rewrite feed_row; auto.
Qed.

Lemma reader_plain_lines (n : nat) (rows : list (list string)) :
  forallb (canonical_row n) rows = true ->
  Csv.reader (map text_line rows) = inr rows.
Proof.
  unfold Csv.reader. induction rows as [|row rows IH]; [done|].
  intros [Hrow Hrows]%andb_prop. simpl.
  rewrite (feed_line_row n) by done. simpl. by rewrite IH.
Qed.

(** *** Records of rows *)

Lemma set_fresh (k : key) (v : value) (d : dict) :
  k ∉ keys d -> set k v d = d ++ [(k, v)].
Proof.
  induction d as [|[k' v'] d IH]; intros Hk; [done|]. simpl in *.
  rewrite key_eqb_neq.
  - rewrite IH; [done|]. intros ?. apply Hk. by right.
  - intros ->. apply Hk. by left.
Qed.

Lemma dict_zip_from (ks : list string) :
  forall (vs : list string) (acc : dict),
  NoDup ks ->
  (forall k, k ∈ ks -> Some k ∉ keys acc) ->
  fold_left (fun d kv => set (Some (fst kv)) (VStr (snd kv)) d) (combine ks vs) acc
  = acc ++ record_of ks vs.
Proof.
  induction ks as [|k ks IH]; intros vs acc Hnd Hacc.
  - simpl. by rewrite app_nil_r.
  - destruct vs as [|v vs]; simpl; [by rewrite app_nil_r|].
    apply NoDup_cons in Hnd as [Hk Hnd].
    rewrite set_fresh by (apply Hacc; by left).
    rewrite IH; [by rewrite <- app_assoc | done |].
    intros k' Hk'. unfold keys. rewrite map_app. simpl.
    intros [Hin | Hin%list_elem_of_singleton]%elem_of_app.
    + apply (Hacc k'); [by right | done].
    + congruence.
Qed.

Lemma row_dict_record (header row : list string) :
  NoDup header -> length row = length header ->
  Csv.row_dict header row = record_of header row.
Proof.
  intros Hnd Hlen. unfold Csv.row_dict. rewrite Hlen, Nat.ltb_irrefl.
  unfold dict_zip. rewrite dict_zip_from; [done | done |].
  intros k _. simpl. apply not_elem_of_nil.
Qed.

Lemma filter_not_blank (n : nat) (rows : list (list string)) :
  forallb (canonical_row n) rows = true ->
  List.filter (fun row => negb (Csv.is_blank row)) rows = rows.
Proof.
  induction rows as [|row rows IH]; [done|].
  intros [Hrow Hrows]%andb_prop. simpl.
  apply canonical_row_inv in Hrow as (_ & _ & _ & Hne).
  destruct row; [done|]. simpl. by rewrite IH.
Qed.

Lemma forallb_canonical_plain (n : nat) (rows : list (list string)) :
  forallb (canonical_row n) rows = true ->
  Forall (fun row => forallb plain row = true) rows.
Proof.
  induction rows as [|row rows IH]; [constructor|].
  intros [Hrow Hrows]%andb_prop. constructor; [|by apply IH].
  by apply canonical_row_inv in Hrow as (_ & ? & _).
Qed.

(** What is loaded from a source in the writer's form. *)
Lemma load_plain_text (header : list string) (rows : list (list string)) :
  NoDup header ->
  forallb (canonical_row (length header)) (header :: rows) = true ->
  Csv.DictReader (TextIO.readlines (plain_text (header :: rows)))
  = inr (map (record_of header) rows).
Proof.
  intros Hnd Hall.
  rewrite readlines_plain_text by by eapply forallb_canonical_plain.
  unfold Csv.DictReader. rewrite (reader_plain_lines _ _ Hall). simpl.
  simpl in Hall. apply andb_prop in Hall as [_ Hrows].
  rewrite (filter_not_blank _ _ Hrows). f_equal.
  clear -Hnd Hrows. induction rows as [|row rows IH]; [done|].
  simpl in Hrows. apply andb_prop in Hrows as [Hrow Hrows].
  apply canonical_row_inv in Hrow as (Hlen & _).
  simpl. by rewrite row_dict_record, IH.
Qed.

(** *** The writer on records of plain fields *)

Lemma keys_record_of (header row : list string) :
  length row = length header -> keys (record_of header row) = map Some header.
Proof.
  revert row. induction header as [|k ks IH]; intros [|v vs] Hlen; try done.
  simpl in *. f_equal. apply IH. lia.
Qed.

Lemma values_record_of (header : list string) :
  forall (row : list string),
  NoDup header -> length row = length header ->
  map (fun k => default (VStr EmptyString) (get k (record_of header row)))
      (map Some header)
  = map VStr row.
Proof.
  induction header as [|k ks IH]; intros [|v vs] Hnd Hlen; try done.
  apply NoDup_cons in Hnd as [Hk Hnd]. simpl in *.
  rewrite String.eqb_refl. simpl. f_equal.
  rewrite <- (IH vs) by (done || lia).
  apply map_ext_in. intros k' Hin. apply in_map_iff in Hin as (k0 & <- & Hin).
  simpl. destruct (String.eqb k k0) eqn:E; [|done].
  apply String.eqb_eq in E. subst k0. by apply list_elem_of_In in Hin.
Qed.

Lemma convertible_own_keys (d : dict) : convertible (keys d) d = true.
Proof.
  unfold convertible. apply forallb_forall. intros k Hin.
  apply existsb_exists. exists k. split; [done | apply key_eqb_refl].
Qed.

Lemma join_append_plain (f : string) : plain f = true -> Csv.join_append f = f.
Proof.
  intros H. unfold Csv.join_append. by rewrite (plain_no_special _ H).
Qed.

Lemma writerow_plain (n : nat) (row : list string) :
  canonical_row n row = true ->
  Csv.writerow (map VStr row) = plain_line row.
Proof.
  intros (_ & Hp & He & _)%canonical_row_inv. unfold Csv.writerow, plain_line.
  assert (Hm : map (fun v => Csv.join_append (Csv.field_text v)) (map VStr row) = row).
  { clear He. induction row as [|f row IH]; [done|].
    simpl in Hp. apply andb_prop in Hp as [Hf Hp].
    simpl. by rewrite join_append_plain, IH. }
  rewrite Hm, He, andb_false_r. done.
Qed.

Lemma header_row_names (header : list string) :
  Csv.header_row (map Some header) = map VStr header.
Proof. unfold Csv.header_row. by rewrite map_map. Qed.

(** The text written for the records of a source in the writer's form is
    that source. *)
Lemma csv_text_records (header : list string) (rows : list (list string)) :
  NoDup header ->
  forallb (canonical_row (length header)) (header :: rows) = true ->
  csv_text (map Some header) (map (record_of header) rows)
  = plain_text (header :: rows) /\
  forallb (convertible (map Some header)) (map (record_of header) rows) = true.
Proof.
  intros Hnd Hall. simpl in Hall. apply andb_prop in Hall as [Hh Hrows].
  unfold csv_text, plain_text. simpl.
  rewrite header_row_names, (writerow_plain _ _ Hh).
  enough (rows_text (map Some header) (map (record_of header) rows)
          = Text.concat (map plain_line rows) /\
          forallb (convertible (map Some header)) (map (record_of header) rows) = true)
    as [-> ->] by done.
  clear Hh. induction rows as [|row rows IH]; [done|].
  simpl in Hrows. apply andb_prop in Hrows as [Hrow Hrows].
  destruct (IH Hrows) as [IH1 IH2].
  pose proof (canonical_row_inv _ _ Hrow) as (Hlen & _).
  unfold rows_text in *. simpl. rewrite IH1, IH2. split.
  - f_equal. unfold row_text.
    by rewrite values_record_of, (writerow_plain _ _ Hrow).
  - rewrite andb_true_r, <- (keys_record_of header row Hlen).
    apply convertible_own_keys.
Qed.

(** C9 (as amended). For a source in the writer's own form, that is lines
    ended by CR LF, a header of distinct names, at least one record, every
    row with as many fields as the header, every field plain and no line
    blank, saving what was loaded gives back the source byte for byte: the
    save returns and the world is as it was. *)
Theorem save_after_load_canonical
  (p : string) (w : world) (header : list string) (rows : list (list string)) :
  files w !! p = Some (plain_text (header :: rows)) ->
  NoDup header ->
  rows <> [] ->
  forallb (canonical_row (length header)) (header :: rows) = true ->
  save_after_load p w = (inr tt, w) /\
  files (save_after_load p w).2 !! p = Some (plain_text (header :: rows)).
Proof.
  intros Hf Hnd Hne Hall.
  assert (Hrun : save_after_load p w = (inr tt, w)).
  { unfold save_after_load, bind.
    rewrite (read_csv_data_present _ _ _ Hf), (load_plain_text _ _ Hnd Hall).
    destruct rows as [|row rows]; [done|].
    change (map (record_of header) (row :: rows))
      with (record_of header row :: map (record_of header) rows).
    cbv beta iota.
    change (record_of header row :: map (record_of header) rows)
      with (map (record_of header) (row :: rows)).
    assert (Hlen : length row = length header).
    { simpl in Hall. apply andb_prop in Hall as [_ [Hrow _]%andb_prop].
      by apply canonical_row_inv in Hrow as (? & _). }
    rewrite update_csv_data_spec, (keys_record_of _ _ Hlen).
    destruct (csv_text_records header (row :: rows) Hnd Hall) as [Ht Hc].
    rewrite Hc, (writable_prefix_all _ _ Hc), Ht.
    by rewrite (with_file_same _ _ _ Hf). }
  by rewrite Hrun.
Qed.

Lemma save_after_load_canonical_witness :
  files (Examples.epics_world Examples.scenario_source) !! EPICS_CSV_PATH
  = Some (plain_text (["EpicID"; "Title"; "JiraTicketID"]
                      :: [["E1"; "Login flow"; EmptyString];
                          ["E2"; "Billing"; "FER-10"]])) /\
  save_after_load EPICS_CSV_PATH (Examples.epics_world Examples.scenario_source)
  = (inr tt, Examples.epics_world Examples.scenario_source) /\
  files (save_after_load EPICS_CSV_PATH
           (Examples.epics_world Examples.scenario_source)).2 !! EPICS_CSV_PATH
  = Some (plain_text (["EpicID"; "Title"; "JiraTicketID"]
                      :: [["E1"; "Login flow"; EmptyString];
                          ["E2"; "Billing"; "FER-10"]])).
Proof.
  split; [reflexivity|].
  apply (save_after_load_canonical EPICS_CSV_PATH
           (Examples.epics_world Examples.scenario_source)
           ["EpicID"; "Title"; "JiraTicketID"]
           [["E1"; "Login flow"; EmptyString]; ["E2"; "Billing"; "FER-10"]]).
  - reflexivity.
  - apply (bool_decide_unpack _). reflexivity.
  - discriminate.
  - reflexivity.
Defined.

(** * Further properties *)

Import Further.

(** ** The dry-run flag *)

Lemma loop_body_flag (c : collection) (b b' : bool) (r : dict) :
  loop_body c b r
  = (map (with_dry_run b) (loop_body c b' r).1, (loop_body c b' r).2).
Proof.
  destruct c; simpl; unfold sync_epic, sync_backlog_item.
  - destruct (truthy (get JiraTicketID r)).
    + destruct (getitem "Title" r) as [e|t]; simpl; [done|].
      by destruct (getitem "JiraTicketID" r).
    + destruct (getitem "Title" r) as [e|t]; simpl; [done|].
      destruct (getitem "EpicID" r) as [e|v]; simpl; [done|].
      by destruct (str_replace "E" "10" v).
  - destruct (truthy (get JiraTicketID r)).
    + destruct (getitem "SubtaskDescription" r) as [e|t]; simpl; [done|].
      destruct (slice40 t) as [e|t']; simpl; [done|].
      by destruct (getitem "JiraTicketID" r).
    + destruct (getitem "SubtaskDescription" r) as [e|t]; simpl; [done|].
      destruct (slice40 t) as [e|t']; simpl; [done|].
      destruct (getitem "SubtaskID" r) as [e|v]; simpl; [done|].
      by destruct (str_replace "T" EmptyString v).
Qed.

(** X1. The dry-run flag changes nothing in a pass but the wording of the
    lines that report a key: with either flag the pass leaves the same
    records or raises the same exception, and prints the same lines up to
    the flag they carry. *)
Theorem dry_run_flag_only_rewords (c : collection) (b b' : bool) (data : list dict) :
  for_each (loop_body c b) data
  = (map (map (with_dry_run b)) (for_each (loop_body c b') data).1,
     (for_each (loop_body c b') data).2).
Proof.
  induction data as [|r rest IH]; [done|]. simpl.
  rewrite (loop_body_flag c b b' r), IH.
  destruct (loop_body c b' r) as [ls [e|r']]; simpl; [done|].
  by destruct (for_each (loop_body c b') rest) as [bs [e|ds]].
Qed.

(** ** What a pass does to the records *)

Lemma keys_set (k : key) (v : value) (d : dict) :
  keys (set k v d) = match get k d with
                     | Some _ => keys d
                     | None => keys d ++ [k]
                     end.
Proof.
  induction d as [|[k' v'] d IH]; [done|]. simpl.
  destruct (key_eqb k' k); [done|]. simpl. rewrite IH.
  by destruct (get k d).
Qed.

(** The two ways the body of the loop ends normally. *)
Lemma body_cases (c : collection) (dry_run : bool) (r r' : dict) (ls : list line) :
  loop_body c dry_run r = (ls, inr r') ->
  (truthy (get JiraTicketID r) = true /\ r' = r /\ creations ls = 0 /\
   exists j, outcome ls = Some (Skipped j)) \/
  (truthy (get JiraTicketID r) = false /\ creations ls = 1 /\
   exists k, r' = set JiraTicketID (VStr k) r /\ outcome ls = Some (Created k)).
Proof.
  destruct c; simpl; unfold sync_epic, sync_backlog_item;
    destruct (truthy (get JiraTicketID r)) eqn:Ht.
  - destruct (getitem "Title" r) as [e|t]; simpl; [done|].
    destruct (getitem "JiraTicketID" r) as [e|j]; simpl; [done|].
    intros [= <- <-]. left. eauto.
  - destruct (getitem "Title" r) as [e|t]; simpl; [done|].
    destruct (getitem "EpicID" r) as [e|v]; simpl; [done|].
    destruct (str_replace "E" "10" v) as [e|digits]; simpl; [done|].
    intros [= <- <-]. right. eauto.
  - destruct (getitem "SubtaskDescription" r) as [e|t]; simpl; [done|].
    destruct (slice40 t) as [e|t']; simpl; [done|].
    destruct (getitem "JiraTicketID" r) as [e|j]; simpl; [done|].
    intros [= <- <-]. left. eauto.
  - destruct (getitem "SubtaskDescription" r) as [e|t]; simpl; [done|].
    destruct (slice40 t) as [e|t']; simpl; [done|].
    destruct (getitem "SubtaskID" r) as [e|v]; simpl; [done|].
    destruct (str_replace "T" EmptyString v) as [e|digits]; simpl; [done|].
    intros [= <- <-]. right. eauto.
Qed.

(** X2. A pass that runs to its end keeps the number and the order of the
    records and touches no field but [JiraTicketID]: every other key has
    the value it had, a record that had a ticket id is left as it was, and
    the keys of a record are the ones it had, with [JiraTicketID] added
    last when the record did not have that key. *)
Theorem pass_changes_only_ticket_ids
  (c : collection) (dry_run : bool) (data data' : list dict)
  (blocks : list (list line)) :
  for_each (loop_body c dry_run) data = (blocks, inr data') ->
  length data' = length data /\
  forall (i : nat) (r r' : dict),
    data !! i = Some r -> data' !! i = Some r' ->
    (forall k, k <> JiraTicketID -> get k r' = get k r) /\
    (truthy (get JiraTicketID r) = true -> r' = r) /\
    keys r' = match get JiraTicketID r with
              | Some _ => keys r
              | None => keys r ++ [JiraTicketID]
              end.
Proof.
  intros Hloop. split; [by apply (for_each_length _ _ _ _ Hloop)|].
  intros i r r' Hi Hi'.
  destruct (for_each_lookup _ _ _ _ Hloop _ _ Hi) as (ls & r0 & Hb & _ & Hd).
  rewrite Hi' in Hd. injection Hd as <-.
  destruct (body_cases _ _ _ _ _ Hb) as [(Ht & -> & _) | (Ht & _ & k & -> & _)].
  - repeat split; try done. by destruct (truthy_Some _ Ht) as [j ->].
  - repeat split.
    + intros k' Hk'. by apply get_set_ne.
    + by rewrite Ht.
    + apply keys_set.
Qed.

Lemma pass_changes_only_ticket_ids_witness :
  for_each (loop_body Epics false) Examples.scenario
  = ([[FoundNewEpic (VStr "Login flow"); EpicKey false "FER-101"];
      [SkippingEpic (VStr "Billing") (VStr "FER-10")]],
     inr Examples.scenario_synced) /\
  length Examples.scenario_synced = length Examples.scenario /\
  forall (i : nat) (r r' : dict),
    Examples.scenario !! i = Some r -> Examples.scenario_synced !! i = Some r' ->
    (forall k, k <> JiraTicketID -> get k r' = get k r) /\
    (truthy (get JiraTicketID r) = true -> r' = r) /\
    keys r' = match get JiraTicketID r with
              | Some _ => keys r
              | None => keys r ++ [JiraTicketID]
              end.
Proof.
  split; [reflexivity|].
  apply (pass_changes_only_ticket_ids Epics false Examples.scenario
           Examples.scenario_synced
           [[FoundNewEpic (VStr "Login flow"); EpicKey false "FER-101"];
            [SkippingEpic (VStr "Billing") (VStr "FER-10")]]).
  reflexivity.
Defined.

(** X3. A pass that runs to its end reports one outcome per record and
    makes exactly one creation for each record that had no ticket id. *)
Theorem one_creation_per_unsynced_record
  (c : collection) (dry_run : bool) (data data' : list dict)
  (blocks : list (list line)) :
  for_each (loop_body c dry_run) data = (blocks, inr data') ->
  length blocks = length data /\
  Forall (fun b => is_Some (outcome b)) blocks /\
  creations (List.concat blocks) = length (List.filter unsynced data) /\
  length (List.filter (fun b => is_created (outcome b)) blocks)
  = length (List.filter unsynced data).
Proof.
  revert blocks data'.
  induction data as [|r rest IH]; intros blocks data' H; simpl in H.
  - injection H as <- <-. repeat split. constructor.
  - destruct (loop_body c dry_run r) as [ls [e|r']] eqn:Hb; [done|].
    destruct (for_each (loop_body c dry_run) rest) as [bs [e|ds]] eqn:Hr;
      simpl in H; [done|].
    injection H as <- <-.
    destruct (IH _ _ eq_refl) as (Hlen & Hout & Hcr & Hcount).
    assert (Hu : unsynced r = negb (truthy (get JiraTicketID r))) by done.
    simpl. rewrite creations_app, Hcr, Hlen, Hu.
    destruct (body_cases _ _ _ _ _ Hb)
      as [(Ht & _ & Hc & j & Ho) | (Ht & Hc & k & _ & Ho)];
      rewrite Ht, Hc, Ho; simpl; rewrite ?Hcount;
      (split; [done|]); (split; [constructor; [by eexists | done]|]); done.
Qed.

Lemma one_creation_per_unsynced_record_witness :
  for_each (loop_body Epics false) Examples.scenario
  = ([[FoundNewEpic (VStr "Login flow"); EpicKey false "FER-101"];
      [SkippingEpic (VStr "Billing") (VStr "FER-10")]],
     inr Examples.scenario_synced) /\
  length [[FoundNewEpic (VStr "Login flow"); EpicKey false "FER-101"];
          [SkippingEpic (VStr "Billing") (VStr "FER-10")]]
  = length Examples.scenario /\
  Forall (fun b => is_Some (outcome b))
    [[FoundNewEpic (VStr "Login flow"); EpicKey false "FER-101"];
     [SkippingEpic (VStr "Billing") (VStr "FER-10")]] /\
  creations (List.concat
    [[FoundNewEpic (VStr "Login flow"); EpicKey false "FER-101"];
     [SkippingEpic (VStr "Billing") (VStr "FER-10")]])
  = length (List.filter unsynced Examples.scenario) /\
  length (List.filter (fun b => is_created (outcome b))
    [[FoundNewEpic (VStr "Login flow"); EpicKey false "FER-101"];
     [SkippingEpic (VStr "Billing") (VStr "FER-10")]])
  = length (List.filter unsynced Examples.scenario).
Proof.
  split; [reflexivity|].
  apply (one_creation_per_unsynced_record Epics false Examples.scenario
           Examples.scenario_synced). reflexivity.
Defined.

(** ** Records the loop cannot process *)

Lemma for_each_app_reject (body : dict -> list line * (exn + dict))
  (pre post : list dict) (r : dict) (e : exn) :
  Forall (fun x => exists x', (body x).2 = inr x') pre ->
  (body r).2 = inl e ->
  for_each body (pre ++ r :: post)
  = (map (fun x => (body x).1) (pre ++ [r]), inl e).
Proof.
  intros Hpre Hr. induction Hpre as [|x pre [x' Hx] _ IH]; simpl.
  - destruct (body r) as [ls res]. simpl in Hr. by subst res.
  - destruct (body x) as [ls res]. simpl in Hx. subst res.
    by rewrite IH.
Qed.

Lemma for_each_all_accepted (body : dict -> list line * (exn + dict))
  (pre : list dict) :
  Forall (fun x => exists x', (body x).2 = inr x') pre ->
  exists pre',
    for_each body pre = (map (fun x => (body x).1) pre, inr pre') /\
    Forall2 (fun x x' => (body x).2 = inr x') pre pre'.
Proof.
  induction 1 as [|x pre [x' Hx] _ (pre' & IH & Hall)]; simpl.
  - exists []. split; [done | constructor].
  - exists (x' :: pre'). split; [|by constructor].
    rewrite IH. destruct (body x) as [ls res]. simpl in Hx. by subst res.
Qed.

(** X4. A record the body of the loop cannot process ends the run with
    the exception the body raised, in commit mode as in dry-run mode,
    before anything is written.  The loop stops there: the lines printed
    are the first line of the run and the lines of the records up to and
    including that one, none for the records after it; the records before
    it had been processed, each into the record its body gives; and the
    files are as they were, so what those records were given is lost. *)
Theorem rejected_record_aborts_run
  (c : collection) (dry_run : bool) (w : world) (content : string)
  (pre post : list dict) (r : dict) (e : exn) :
  files w !! source_path c = Some content ->
  Csv.DictReader (TextIO.readlines content) = inr (pre ++ r :: post) ->
  Forall (fun x => exists x', (loop_body c dry_run x).2 = inr x') pre ->
  (loop_body c dry_run r).2 = inl e ->
  sync c dry_run w
  = (inl e,
     printed (starting c
              :: List.concat (map (fun x => (loop_body c dry_run x).1) (pre ++ [r])))
       w) /\
  files (sync c dry_run w).2 = files w /\
  for_each (loop_body c dry_run) (pre ++ r :: post)
  = (map (fun x => (loop_body c dry_run x).1) (pre ++ [r]), inl e) /\
  exists pre',
    for_each (loop_body c dry_run) pre
    = (map (fun x => (loop_body c dry_run x).1) pre, inr pre') /\
    Forall2 (fun x x' => (loop_body c dry_run x).2 = inr x') pre pre'.
Proof.
  intros Hf Hr Hpre He.
  pose proof (for_each_app_reject _ pre post r e Hpre He) as Hloop.
  rewrite sync_unfold, Hf, Hr, Hloop. simpl.
  split; [done|]. split; [done|]. split; [done|].
  by apply for_each_all_accepted.
Qed.

(** The second epic of a source without a Title for it: a row of one
    field under a header whose first column is the title. *)
Lemma rejected_record_aborts_run_witness :
  let content := ("Title,EpicID,JiraTicketID" ++ crlf ++ "Login flow,E1," ++ crlf
                  ++ "Billing" ++ crlf ++ "Search,E3," ++ crlf)%string in
  let w := Examples.epics_world content in
  sync Epics false w
  = (inl AttributeError,
     printed [StartingEpicSync; FoundNewEpic (VStr "Login flow");
              EpicKey false "FER-101"; FoundNewEpic (VStr "Billing")] w) /\
  files (sync Epics false w).2 = files w.
Proof.
  destruct (rejected_record_aborts_run Epics false
           (Examples.epics_world
              ("Title,EpicID,JiraTicketID" ++ crlf ++ "Login flow,E1," ++ crlf
               ++ "Billing" ++ crlf ++ "Search,E3," ++ crlf)%string)
           ("Title,EpicID,JiraTicketID" ++ crlf ++ "Login flow,E1," ++ crlf
               ++ "Billing" ++ crlf ++ "Search,E3," ++ crlf)%string
           [ [(Some "Title", VStr "Login flow"); (Some "EpicID", VStr "E1");
              (Some "JiraTicketID", VStr EmptyString)] ]
           [ [(Some "Title", VStr "Search"); (Some "EpicID", VStr "E3");
              (Some "JiraTicketID", VStr EmptyString)] ]
           [(Some "Title", VStr "Billing"); (Some "EpicID", VNone);
            (Some "JiraTicketID", VNone)]
           AttributeError) as (H1 & H2 & _).
  - reflexivity.
  - reflexivity.
  - constructor; [|constructor]. eexists. reflexivity.
  - reflexivity.
  - split; [exact H1 | exact H2].
Defined.

(** X5. When [sync_epic] raises.  A record without the key [Title]
    raises [KeyError] for it before anything is printed, whether or not
    it has a ticket id.  A record with a title and without a ticket id
    raises, after its "Found" line, [KeyError] when it has no key
    [EpicID] and [AttributeError] when its [EpicID] is not a string (the
    [None] of a short row).  It raises in no other case. *)
Theorem sync_epic_raises (dry_run : bool) (r : dict) (e : exn) :
  (sync_epic dry_run r).2 = inl e <->
  (get (Some "Title") r = None /\ e = KeyError "Title" /\
   (sync_epic dry_run r).1 = []) \/
  (exists t, get (Some "Title") r = Some t /\ unsynced r = true /\
     (sync_epic dry_run r).1 = [FoundNewEpic t] /\
     ((get (Some "EpicID") r = None /\ e = KeyError "EpicID") \/
      (exists v, get (Some "EpicID") r = Some v /\ is_str (Some v) = false /\
                 e = AttributeError))).
Proof.
  unfold sync_epic, unsynced, getitem.
  change (Some "JiraTicketID") with JiraTicketID.
  destruct (get (Some "Title") r) as [t|] eqn:Ht;
    destruct (truthy (get JiraTicketID r)) eqn:Hj; simpl.
  - destruct (truthy_Some _ Hj) as [j ->]. simpl.
    split; [done|]. intros [(? & _) | (t' & _ & ? & _)]; done.
  - destruct (get (Some "EpicID") r) as [[s| |l]|] eqn:Hid; simpl.
    + split; [done|].
      intros [(? & _) | (t' & _ & _ & _ & [(? & _) | (v & [= <-] & ? & _)])]; done.
    + split.
      * intros [= <-]. right. exists t. repeat split. right. by exists VNone.
      * intros [(? & _) | (t' & _ & _ & _ & [(? & _) | (v & _ & _ & ->)])]; done.
    + split.
      * intros [= <-]. right. exists t. repeat split. right. by exists (VList l).
      * intros [(? & _) | (t' & _ & _ & _ & [(? & _) | (v & _ & _ & ->)])]; done.
    + split.
      * intros [= <-]. right. exists t. repeat split. by left.
      * intros [(? & _) | (t' & _ & _ & _ & [(_ & ->) | (v & ? & _)])]; done.
  - split.
    + intros [= <-]. by left.
    + intros [(_ & -> & _) | (t' & ? & _)]; done.
  - split.
    + intros [= <-]. by left.
    + intros [(_ & -> & _) | (t' & ? & _)]; done.
Qed.

Lemma sync_epic_raises_witness :
  (sync_epic true [(Some "EpicID", VStr "E1"); (Some "JiraTicketID", VStr "FER-999")]).2
  = inl (KeyError "Title").
Proof.
  apply (proj2 (sync_epic_raises true
                  [(Some "EpicID", VStr "E1"); (Some "JiraTicketID", VStr "FER-999")]
                  (KeyError "Title"))).
  left. repeat split.
Defined.

(** X6. When [sync_backlog_item] raises.  Whether or not the item has a
    ticket id, it raises [KeyError] when the item has no key
    [SubtaskDescription] and [TypeError] when the description is [None]
    (a short row), before anything is printed.  An item with a description
    and without a ticket id raises, after its "Found" line with the first
    40 characters of the description, [KeyError] when it has no key
    [SubtaskID] and [AttributeError] when its [SubtaskID] is not a string.
    It raises in no other case. *)
Theorem sync_backlog_item_raises (dry_run : bool) (r : dict) (e : exn) :
  (sync_backlog_item dry_run r).2 = inl e <->
  (get (Some "SubtaskDescription") r = None /\
   e = KeyError "SubtaskDescription" /\ (sync_backlog_item dry_run r).1 = []) \/
  (get (Some "SubtaskDescription") r = Some VNone /\
   e = TypeError /\ (sync_backlog_item dry_run r).1 = []) \/
  (exists d short, get (Some "SubtaskDescription") r = Some d /\
     slice40 d = inr short /\ unsynced r = true /\
     (sync_backlog_item dry_run r).1 = [FoundNewItem short] /\
     ((get (Some "SubtaskID") r = None /\ e = KeyError "SubtaskID") \/
      (exists v, get (Some "SubtaskID") r = Some v /\ is_str (Some v) = false /\
                 e = AttributeError))).
Proof.
  unfold sync_backlog_item, unsynced, getitem.
  change (Some "JiraTicketID") with JiraTicketID.
  destruct (get (Some "SubtaskDescription") r) as [[s| |l]|] eqn:Hd;
    destruct (truthy (get JiraTicketID r)) eqn:Hj; simpl;
    try (destruct (truthy_Some _ Hj) as [j ->]; simpl);
    try (destruct (get (Some "SubtaskID") r) as [[s'| |l']|] eqn:Hid; simpl);
    (split;
     [ intros He; try discriminate He; injection He as <-;
       first [ by left
             | right; by left
             | right; right; eexists; eexists;
               (split; [reflexivity|]); (split; [reflexivity|]);
               (split; [reflexivity|]); (split; [reflexivity|]);
               first [ by left | right; eexists; by repeat split ] ]
     | intros He;
       repeat match goal with
              | H : _ \/ _ |- _ => destruct H
              | H : _ /\ _ |- _ => destruct H
              | H : exists _, _ |- _ => destruct H
              end; simplify_eq; try done ]).
Qed.

Lemma sync_backlog_item_raises_witness :
  (sync_backlog_item true
     [(Some "SubtaskID", VStr "T1.2"); (Some "SubtaskDescription", VNone)]).2
  = inl TypeError.
Proof.
  apply (proj2 (sync_backlog_item_raises true
                  [(Some "SubtaskID", VStr "T1.2"); (Some "SubtaskDescription", VNone)]
                  TypeError)).
  right. left. repeat split.
Defined.

(** ** What a run depends on and what it touches *)

(** A run is determined by the content of its source: the result, the
    lines printed and the text written, if any, are the same in every world
    where the source has that content (or is missing). *)
Lemma sync_effect (c : collection) (dry_run : bool) (o : option string) :
  exists (r : exn + unit) (ls : list line) (t : option string),
  forall w : world,
    files w !! source_path c = o ->
    sync c dry_run w
    = (r, mkWorld (environ w)
            (match t with
             | Some text => <[source_path c := text]> (files w)
             | None => files w
             end)
            (stdout w ++ ls)).
Proof.
  destruct o as [content|].
  2:{ exists (inl (FileNotFoundError (source_path c))), [starting c], None.
      intros w H. by rewrite sync_unfold, H. }
  destruct (Csv.DictReader (TextIO.readlines content)) as [e|data] eqn:Hr.
  { exists (inl e), [starting c], None.
    intros w H. by rewrite sync_unfold, H, Hr. }
  destruct (for_each (loop_body c dry_run) data) as [blocks [e|data']] eqn:Hl.
  { exists (inl e), (starting c :: List.concat blocks), None.
    intros w H. by rewrite sync_unfold, H, Hr, Hl. }
  destruct dry_run.
  { exists (inr tt), (starting c :: List.concat blocks ++ [complete c]), None.
    intros w H. rewrite sync_unfold, H, Hr, Hl. unfold printed. simpl.
    by rewrite <- app_assoc. }
  destruct data' as [|first rest].
  { exists (inl IndexError), (starting c :: List.concat blocks), None.
    intros w H. by rewrite sync_unfold, H, Hr, Hl. }
  destruct (forallb (convertible (keys first)) (first :: rest)) eqn:Hc.
  - exists (inr tt), (starting c :: List.concat blocks ++ [updated c; complete c]),
      (Some (csv_text (keys first) (writable_prefix (keys first) (first :: rest)))).
    intros w H. rewrite sync_unfold, H, Hr, Hl. cbv beta iota zeta.
    rewrite update_csv_data_spec, Hc. unfold printed, with_file. simpl.
    by rewrite <- app_assoc.
  - exists (inl ValueError), (starting c :: List.concat blocks),
      (Some (csv_text (keys first) (writable_prefix (keys first) (first :: rest)))).
    intros w H. rewrite sync_unfold, H, Hr, Hl. cbv beta iota zeta.
    by rewrite update_csv_data_spec, Hc.
Qed.

(** X7. A run touches nothing but its own source: the environment is as
    it was, every other file is as it was, and standard output is only
    added to. *)
Theorem sync_touches_only_its_source (c : collection) (dry_run : bool) (w : world) :
  environ (sync c dry_run w).2 = environ w /\
  (forall q, q <> source_path c -> files (sync c dry_run w).2 !! q = files w !! q) /\
  exists ls, stdout (sync c dry_run w).2 = stdout w ++ ls.
Proof.
  destruct (sync_effect c dry_run (files w !! source_path c)) as (r & ls & t & H).
  rewrite (H w eq_refl). simpl. split; [done|]. split; [|by exists ls].
  intros q Hq. destruct t; [|done]. by rewrite lookup_insert_ne.
Qed.

Lemma sync_touches_only_its_source_witness :
  files (sync Epics false
           (mkWorld ∅ {[ EPICS_CSV_PATH := Examples.scenario_source;
                         BACKLOG_CSV_PATH := "kept" ]} [])).2 !! BACKLOG_CSV_PATH
  = Some "kept".
Proof.
  refine (eq_trans
    (proj1 (proj2 (sync_touches_only_its_source Epics false
       (mkWorld ∅ {[ EPICS_CSV_PATH := Examples.scenario_source;
                     BACKLOG_CSV_PATH := "kept" ]} []))) BACKLOG_CSV_PATH _) _).
  - discriminate.
  - reflexivity.
Defined.

(** X8. A run depends on nothing but the content of its own source: in
    two worlds where the source has the same content, or is missing, the
    run returns the same result, prints the same lines and leaves the
    same content at the source. *)
Theorem sync_depends_only_on_its_source
  (c : collection) (dry_run : bool) (w w0 : world) :
  files w !! source_path c = files w0 !! source_path c ->
  (sync c dry_run w).1 = (sync c dry_run w0).1 /\
  files (sync c dry_run w).2 !! source_path c
  = files (sync c dry_run w0).2 !! source_path c /\
  exists ls, stdout (sync c dry_run w).2 = stdout w ++ ls /\
             stdout (sync c dry_run w0).2 = stdout w0 ++ ls.
Proof.
  intros Hsame.
  destruct (sync_effect c dry_run (files w !! source_path c)) as (r & ls & t & H).
  rewrite (H w eq_refl), (H w0 (eq_sym Hsame)). simpl.
  split; [done|]. split; [|by exists ls].
  destruct t; [|done]. by rewrite !lookup_insert_eq.
Qed.

Lemma sync_depends_only_on_its_source_witness :
  (sync Epics false (Examples.epics_world Examples.scenario_source)).1
  = (sync Epics false
       (mkWorld {[ "JIRA_API_TOKEN" := "secret" ]}
                {[ EPICS_CSV_PATH := Examples.scenario_source;
                   BACKLOG_CSV_PATH := "other" ]}
                [StartingBacklogSync])).1.
Proof.
  refine (proj1 (sync_depends_only_on_its_source Epics false
           (Examples.epics_world Examples.scenario_source)
           (mkWorld {[ "JIRA_API_TOKEN" := "secret" ]}
                {[ EPICS_CSV_PATH := Examples.scenario_source;
                   BACKLOG_CSV_PATH := "other" ]}
                [StartingBacklogSync]) _)).
  vm_compute. reflexivity.
Defined.

Lemma paths_differ : EPICS_CSV_PATH <> BACKLOG_CSV_PATH.
Proof. discriminate. Qed.

(** X9. The two syncs do not interfere: each returns what it returns
    when run alone, whichever runs first, and the files they leave are
    the same in either order. *)
Theorem syncs_commute (d1 d2 : bool) (w : world) :
  (sync_backlog_to_jira d2 (sync_epics_to_jira d1 w).2).1
  = (sync_backlog_to_jira d2 w).1 /\
  (sync_epics_to_jira d1 (sync_backlog_to_jira d2 w).2).1
  = (sync_epics_to_jira d1 w).1 /\
  files (sync_backlog_to_jira d2 (sync_epics_to_jira d1 w).2).2
  = files (sync_epics_to_jira d1 (sync_backlog_to_jira d2 w).2).2.
Proof.
  change (sync_epics_to_jira d1) with (sync Epics d1).
  change (sync_backlog_to_jira d2) with (sync Backlog d2).
  destruct (sync_effect Epics d1 (files w !! source_path Epics)) as (r1 & l1 & t1 & H1).
  destruct (sync_effect Backlog d2 (files w !! source_path Backlog))
    as (r2 & l2 & t2 & H2).
  rewrite (H1 w eq_refl), (H2 w eq_refl). simpl.
  rewrite H2, H1; simpl.
  - split; [done|]. split; [done|].
    destruct t1, t2; try done. apply insert_insert_ne. apply not_eq_sym, paths_differ.
  - destruct t2; [|done]. apply lookup_insert_ne. apply not_eq_sym, paths_differ.
  - destruct t1; [|done]. apply lookup_insert_ne. apply paths_differ.
Qed.

(** X10. A dry run leaves no trace for the commit run that follows it:
    the keys it gave in memory are dropped, and the commit run returns
    what it returns, and leaves the files it leaves, without the dry run
    before it. *)
Theorem dry_run_then_commit (c : collection) (w : world) :
  (sync c false (sync c true w).2).1 = (sync c false w).1 /\
  files (sync c false (sync c true w).2).2 = files (sync c false w).2.
Proof.
  destruct (sync_effect c false (files w !! source_path c)) as (r & ls & t & H).
  assert (Hdry : files (sync c true w).2 = files w).
  { rewrite sync_unfold.
    destruct (files w !! source_path c) as [content|]; [|done].
    destruct (Csv.DictReader (TextIO.readlines content)) as [e|data]; [done|].
    by destruct (for_each (loop_body c true) data) as [blocks [e|data']]. }
  rewrite (H w eq_refl), (H (sync c true w).2) by by rewrite Hdry.
  simpl. by rewrite Hdry.
Qed.

(** ** Saving and loading *)



(** X12. What is saved can be loaded back: for records of plain fields
    under a header of distinct names, [update_csv_data] returns and
    [read_csv_data] at the same place then gives the same records, in the
    same order. *)
Theorem load_after_save
  (p : string) (w : world) (header : list string) (rows : list (list string)) :
  NoDup header ->
  forallb (canonical_row (length header)) (header :: rows) = true ->
  (update_csv_data p (map (record_of header) rows) (map Some header) w).1 = inr tt /\
  (read_csv_data p
     (update_csv_data p (map (record_of header) rows) (map Some header) w).2).1
  = inr (map (record_of header) rows).
Proof.
  intros Hnd Hall.
  destruct (csv_text_records header rows Hnd Hall) as [Ht Hc].
  rewrite update_csv_data_spec, Hc, (writable_prefix_all _ _ Hc), Ht. simpl.
  split; [done|].
  erewrite read_csv_data_present; [|simpl; apply lookup_insert_eq].
  simpl. by apply load_plain_text.
Qed.

Lemma load_after_save_witness :
  map (record_of ["EpicID"; "Title"; "JiraTicketID"])
    [["E1"; "Login flow"; EmptyString]; ["E2"; "Billing"; "FER-10"]]
  = Examples.scenario /\
  (update_csv_data EPICS_CSV_PATH
     (map (record_of ["EpicID"; "Title"; "JiraTicketID"])
        [["E1"; "Login flow"; EmptyString]; ["E2"; "Billing"; "FER-10"]])
     (map Some ["EpicID"; "Title"; "JiraTicketID"]) (mkWorld ∅ ∅ [])).1 = inr tt /\
  (read_csv_data EPICS_CSV_PATH
     (update_csv_data EPICS_CSV_PATH
        (map (record_of ["EpicID"; "Title"; "JiraTicketID"])
           [["E1"; "Login flow"; EmptyString]; ["E2"; "Billing"; "FER-10"]])
        (map Some ["EpicID"; "Title"; "JiraTicketID"]) (mkWorld ∅ ∅ [])).2).1
  = inr (map (record_of ["EpicID"; "Title"; "JiraTicketID"])
           [["E1"; "Login flow"; EmptyString]; ["E2"; "Billing"; "FER-10"]]).
Proof.
  split; [reflexivity|].
  apply (load_after_save EPICS_CSV_PATH (mkWorld ∅ ∅ [])
           ["EpicID"; "Title"; "JiraTicketID"]
           [["E1"; "Login flow"; EmptyString]; ["E2"; "Billing"; "FER-10"]]).
  - apply (bool_decide_unpack _). reflexivity.
  - reflexivity.
Defined.

(** *** The keys of a loaded record *)

Lemma keys_record_of_take (header : list string) :
  forall row : list string,
  keys (record_of header row) = map Some (List.firstn (length row) header).
Proof.
  induction header as [|k ks IH]; intros [|v vs]; try done.
  simpl. f_equal. apply IH.
Qed.

Lemma fold_set_fresh (ks : list string) :
  forall d : dict,
  NoDup ks ->
  (forall k, k ∈ ks -> Some k ∉ keys d) ->
  keys (fold_left (fun d k' => set (Some k') VNone d) ks d) = keys d ++ map Some ks.
Proof.
  induction ks as [|k ks IH]; intros d Hnd Hd; simpl.
  - by rewrite app_nil_r.
  - apply NoDup_cons in Hnd as [Hk Hnd].
    rewrite IH; [| done |].
    + rewrite set_fresh by (apply Hd; by left).
      unfold keys. rewrite map_app. simpl. by rewrite <- app_assoc.
    + intros k' Hk'. rewrite set_fresh by (apply Hd; by left).
      unfold keys. rewrite map_app. simpl.
      intros [Hin | Hin%list_elem_of_singleton]%elem_of_app.
      * apply (Hd k'); [by right | done].
      * congruence.
Qed.

(** The keys of the record built from one row. *)
Lemma row_dict_keys (header row : list string) :
  NoDup header ->
  keys (Csv.row_dict header row)
  = map Some header ++ (if (length header <? length row)%nat then [None] else []).
Proof.
  intros Hnd. unfold Csv.row_dict, dict_zip.
  rewrite dict_zip_from; [| done | intros k _; apply not_elem_of_nil].
  simpl.
  destruct (length header <? length row)%nat eqn:E1.
  - apply Nat.ltb_lt in E1.
    rewrite set_fresh.
    + unfold keys at 1. rewrite map_app. fold (keys (record_of header row)).
      rewrite keys_record_of_take, firstn_all2 by lia. done.
    + rewrite keys_record_of_take. intros Hin%list_elem_of_In.
      apply in_map_iff in Hin as (? & ? & _). done.
  - apply Nat.ltb_ge in E1. rewrite app_nil_r.
    destruct (length row <? length header)%nat eqn:E2.
    + rewrite fold_set_fresh.
      * rewrite keys_record_of_take, <- map_app.
        by rewrite <- (firstn_skipn (length row) header) at 3.
      * pose proof Hnd as Hnd'.
        rewrite <- (firstn_skipn (length row) header) in Hnd'.
        by apply NoDup_app in Hnd' as (_ & _ & ?).
      * intros k Hk. rewrite keys_record_of_take.
        intros Hin%list_elem_of_In. apply in_map_iff in Hin as (k' & [= ->] & Hin).
        apply list_elem_of_In in Hin.
        rewrite <- (firstn_skipn (length row) header) in Hnd.
        apply NoDup_app in Hnd as (_ & Hdis & _). by apply (Hdis k).
    + apply Nat.ltb_ge in E2.
      rewrite keys_record_of_take, firstn_all2 by lia. done.
Qed.

(** X13. From a source whose header has distinct names, every row after
    the header that is not blank is loaded as one record, in the order of
    the rows, and the keys of the record of a row are the names of the
    header, all of them and in the order of the header, followed by the
    key [None] exactly when the row is longer than the header. *)
Theorem loaded_records_have_header_keys
  (p : string) (w : world) (content : string)
  (header : list string) (rows : list (list string)) :
  files w !! p = Some content ->
  Csv.reader (TextIO.readlines content) = inr (header :: rows) ->
  NoDup header ->
  read_csv_data p w
  = (inr (map (Csv.row_dict header)
            (List.filter (fun row => negb (Csv.is_blank row)) rows)), w) /\
  forall row,
    keys (Csv.row_dict header row)
    = map Some header
      ++ (if (length header <? length row)%nat then [None] else []).
Proof.
  intros Hf Hr Hnd. rewrite (read_csv_data_present _ _ _ Hf).
  unfold Csv.DictReader. rewrite Hr. simpl. split; [done|].
  intros row. by apply row_dict_keys.
Qed.

Lemma loaded_records_have_header_keys_witness :
  read_csv_data EPICS_CSV_PATH (Examples.epics_world Examples.long_row_source)
  = (inr (map (Csv.row_dict ["EpicID"; "Title"; "JiraTicketID"])
            (List.filter (fun row => negb (Csv.is_blank row))
               [["E1"; "Login flow"; EmptyString];
                ["E2"; "Billing"; "FER-10"; "extra"]])),
     Examples.epics_world Examples.long_row_source) /\
  keys (Csv.row_dict ["EpicID"; "Title"; "JiraTicketID"]
          ["E2"; "Billing"; "FER-10"; "extra"])
  = [Some "EpicID"; Some "Title"; Some "JiraTicketID"; None] /\
  keys (Csv.row_dict ["EpicID"; "Title"; "JiraTicketID"] ["E2"])
  = [Some "EpicID"; Some "Title"; Some "JiraTicketID"].
Proof.
  destruct (loaded_records_have_header_keys EPICS_CSV_PATH
           (Examples.epics_world Examples.long_row_source) Examples.long_row_source
           ["EpicID"; "Title"; "JiraTicketID"]
           [["E1"; "Login flow"; EmptyString]; ["E2"; "Billing"; "FER-10"; "extra"]])
    as (H1 & H2).
  - reflexivity.
  - reflexivity.
  - apply (bool_decide_unpack _). reflexivity.
  - split; [exact H1|]. split.
    + exact (H2 ["E2"; "Billing"; "FER-10"; "extra"]).
    + exact (H2 ["E2"]).
Defined.

(** ** The errors of loading *)

(** The lines of a text file have no CR, and LF only as their last
    character. *)
Lemma readlines_from_shape (n : nat) :
  forall (s cur : string),
  String.length s <= n ->
  Text.existsb Csv.is_newline cur = false ->
  Forall (fun l => exists body, Text.existsb Csv.is_newline body = false /\
                                (l = body \/ l = snoc body LF))
         (TextIO.readlines_from cur s).
Proof.
  induction n as [|n IH]; intros s cur Hlen Hcur.
  - destruct s; [|simpl in Hlen; lia]. simpl.
    destruct (is_empty cur); constructor; [|constructor]. eauto.
  - destruct s as [|c rest]; simpl.
    { destruct (is_empty cur); constructor; [|constructor]. eauto. }
    simpl in Hlen.
    destruct (Ascii.eqb c LF) eqn:Elf.
    { constructor; [eauto|]. apply IH; [lia | done]. }
    destruct (Ascii.eqb c CR) eqn:Ecr.
    { destruct rest as [|c' rest'].
      - constructor; [eauto|]. apply IH; [simpl; lia | done].
      - destruct (Ascii.eqb c' LF).
        + constructor; [eauto|]. apply IH; [simpl in Hlen; lia | done].
        + constructor; [eauto|]. apply IH; [lia | done]. }
    apply IH; [lia|]. rewrite snoc_append, existsb_append, Hcur. simpl.
    unfold Csv.is_newline. by rewrite Elf, Ecr.
Qed.

Lemma parse_add_char_error (r : Csv.ReaderObj) (c : ascii) (e : exn) :
  Csv.parse_add_char r c = inl e -> e = field_limit_error.
Proof.
  unfold Csv.parse_add_char.
  destruct (Csv.field_limit <=? N.of_nat (String.length (Csv.field r)))%N;
    [by intros [= <-] | done].
Qed.

Lemma parse_add_char_state (r r' : Csv.ReaderObj) (c : ascii) :
  Csv.parse_add_char r c = inr r' -> Csv.state r' = Csv.state r.
Proof.
  unfold Csv.parse_add_char.
  destruct (Csv.field_limit <=? N.of_nat (String.length (Csv.field r)))%N;
    [done | by intros [= <-]].
Qed.

(** Outside [EAT_CRNL] the reader raises nothing but the field limit
    error, and a character that is no newline keeps it outside. *)
Lemma process_char_outside (r : Csv.ReaderObj) (c : ascii) :
  not_eating r ->
  match Csv.parse_process_char r (Csv.Chr c) with
  | inl e => e = field_limit_error
  | inr r' => Csv.is_newline c = false -> not_eating r'
  end.
Proof.
  unfold not_eating, Csv.parse_process_char, Csv.start_field. intros Hst.
  destruct (Csv.state r) eqn:Est; try done;
    destruct (Csv.is_newline c) eqn:Enl; simpl; try done;
    repeat match goal with
           | |- context [Ascii.eqb c ?x] => destruct (Ascii.eqb c x); simpl; try done
           end;
    try (destruct (Csv.parse_add_char _ c) as [e|r'] eqn:Ea; simpl;
         [by apply parse_add_char_error in Ea
         | try done; apply parse_add_char_state in Ea; simpl in Ea;
           intros _; congruence]).
  all: try (intros _; simpl; congruence).
Qed.

Lemma feed_outside (s : string) :
  forall r : Csv.ReaderObj,
  Text.existsb Csv.is_newline s = false ->
  not_eating r ->
  match Csv.feed r s with
  | inl e => e = field_limit_error
  | inr r' => not_eating r'
  end.
Proof.
  induction s as [|c s IH]; intros r Hs Hr; [done|].
  simpl in Hs. apply orb_false_elim in Hs as [Hc Hs]. simpl.
  pose proof (process_char_outside r c Hr) as Hp.
  destruct (Csv.parse_process_char r (Csv.Chr c)) as [e|r1]; simpl; [done|].
  apply IH; auto.
Qed.

(** The end-of-line marker never raises and leaves the reader between
    records or inside a quoted field. *)
Lemma process_eol (r : Csv.ReaderObj) :
  exists r', Csv.parse_process_char r Csv.EOL = inr r' /\
             (Csv.state r' = Csv.START_RECORD \/ Csv.state r' = Csv.IN_QUOTED_FIELD).
Proof.
  unfold Csv.parse_process_char, Csv.start_field.
  destruct (Csv.state r) eqn:E; eexists; (split; [reflexivity|]); simpl; auto.
Qed.

Lemma feed_line_outside (r : Csv.ReaderObj) (l body : string) :
  Text.existsb Csv.is_newline body = false ->
  l = body \/ l = snoc body LF ->
  not_eating r ->
  match Csv.feed_line r l with
  | inl e => e = field_limit_error
  | inr r' => Csv.state r' = Csv.START_RECORD \/ Csv.state r' = Csv.IN_QUOTED_FIELD
  end.
Proof.
  intros Hb Hl Hr. unfold Csv.feed_line.
  pose proof (feed_outside body r Hb Hr) as Hf.
  destruct Hl as [-> | ->].
  - destruct (Csv.feed r body) as [e|r1]; simpl; [done|].
    by destruct (process_eol r1) as (r2 & -> & H2).
  - rewrite snoc_append, feed_app.
    destruct (Csv.feed r body) as [e|r1]; simpl; [done|].
    pose proof (process_char_outside r1 LF Hf) as Hp.
    destruct (Csv.parse_process_char r1 (Csv.Chr LF)) as [e|r2]; simpl; [done|].
    by destruct (process_eol r2) as (r3 & -> & H3).
Qed.

Lemma reader_from_error (lines : list string) :
  forall (r : Csv.ReaderObj) (e : exn),
  Forall (fun l => exists body, Text.existsb Csv.is_newline body = false /\
                                (l = body \/ l = snoc body LF)) lines ->
  not_eating r ->
  Csv.reader_from r lines = inl e -> e = field_limit_error.
Proof.
  induction lines as [|l lines IH]; intros r e Hall Hr; simpl.
  - by destruct (negb (is_empty (Csv.field r)) || Csv.in_quoted_field (Csv.state r)).
  - apply Forall_cons in Hall as [(body & Hb & Hl) Hall].
    pose proof (feed_line_outside r l body Hb Hl Hr) as Hf.
    destruct (Csv.feed_line r l) as [e'|r1]; simpl; [by intros [= <-]|].
    destruct Hf as [E | E]; rewrite E.
    + destruct (Csv.reader_from Csv.parse_reset lines) as [e'|rows] eqn:Hrest;
        simpl; [|done].
      intros [= <-]. by apply (IH Csv.parse_reset).
    + apply IH; [done|]. unfold not_eating. by rewrite E.
Qed.

(** X14. The one error of the csv reader that loading can raise is the
    field limit error.  The source is read as a text file, so the reader
    is never given a line with a newline in its middle, and its error
    "new-line character seen in unquoted field" cannot occur; a csv error
    is raised only for a source that exists, and leaves the world as it
    was. *)
Theorem load_csv_error_is_field_limit (p : string) (w : world) :
  match read_csv_data p w with
  | (inl (CsvError msg), w') =>
      msg = "field larger than field limit (131072)" /\
      is_Some (files w !! p) /\ w' = w
  | _ => True
  end.
Proof.
  unfold read_csv_data. destruct (files w !! p) as [content|]; [|done].
  unfold Csv.DictReader, Csv.reader.
  destruct (Csv.reader_from Csv.parse_reset (TextIO.readlines content))
    as [e|rows] eqn:Hr; simpl.
  - assert (He : e = field_limit_error).
    { eapply reader_from_error; [| |exact Hr].
      + by apply (readlines_from_shape (String.length content)).
      + done. }
    subst e. simpl. split; [done|]. split; [by eexists | done].
  - by destruct rows.
Qed.

(** *** Sources within the field limit *)

Lemma length_snoc (s : string) (c : ascii) :
  String.length (snoc s c) = S (String.length s).
Proof. rewrite snoc_append, length_append. simpl. lia. Qed.

(** Outside [EAT_CRNL], with room in the current field, a character is
    accepted, and the field grows by one character at most. *)
Lemma process_char_room (r : Csv.ReaderObj) (c : ascii) :
  not_eating r ->
  (N.of_nat (String.length (Csv.field r)) < Csv.field_limit)%N ->
  exists r', Csv.parse_process_char r (Csv.Chr c) = inr r' /\
             String.length (Csv.field r') <= S (String.length (Csv.field r)).
Proof.
  unfold not_eating, Csv.parse_process_char, Csv.start_field. intros Hst Hroom.
  pose proof (parse_add_char_ok r c Hroom) as Hadd.
  destruct (Csv.state r) eqn:Est; try done;
    destruct (Csv.is_newline c); simpl;
    repeat match goal with
           | |- context [Ascii.eqb c ?x] => destruct (Ascii.eqb c x); simpl
           end;
    rewrite ?Hadd; simpl;
    try (unfold Csv.parse_add_char; simpl; rewrite (proj2 (N.leb_gt _ _) Hroom); simpl);
    eexists; (split; [reflexivity|]); simpl; rewrite ?length_snoc; lia.
Qed.

Lemma process_eol_field (r r' : Csv.ReaderObj) :
  Csv.parse_process_char r Csv.EOL = inr r' ->
  String.length (Csv.field r') <= String.length (Csv.field r).
Proof.
  unfold Csv.parse_process_char, Csv.start_field.
  destruct (Csv.state r); intros [= <-]; simpl; lia.
Qed.

Lemma feed_room (s : string) :
  forall r : Csv.ReaderObj,
  Text.existsb Csv.is_newline s = false ->
  not_eating r ->
  (N.of_nat (String.length (Csv.field r) + String.length s) <= Csv.field_limit)%N ->
  exists r', Csv.feed r s = inr r' /\ not_eating r' /\
             String.length (Csv.field r')
             <= String.length (Csv.field r) + String.length s.
Proof.
  induction s as [|c s IH]; intros r Hs Hr Hroom.
  - exists r. simpl. repeat split; [done | lia].
  - simpl in Hs. apply orb_false_elim in Hs as [Hc Hs]. simpl in Hroom. simpl.
    destruct (process_char_room r c Hr) as (r1 & Hp & Hlen); [lia|].
    pose proof (process_char_outside r c Hr) as Hout.
    rewrite Hp in Hout |- *. simpl.
    destruct (IH r1 Hs (Hout Hc)) as (r2 & Hf & Hr2 & Hlen2); [lia|].
    exists r2. repeat split; [done | done | lia].
Qed.

Lemma feed_line_room (r : Csv.ReaderObj) (l body : string) :
  Text.existsb Csv.is_newline body = false ->
  l = body \/ l = snoc body LF ->
  not_eating r ->
  (N.of_nat (String.length (Csv.field r) + String.length l) <= Csv.field_limit)%N ->
  exists r', Csv.feed_line r l = inr r' /\
             (Csv.state r' = Csv.START_RECORD \/ Csv.state r' = Csv.IN_QUOTED_FIELD) /\
             String.length (Csv.field r')
             <= String.length (Csv.field r) + String.length l.
Proof.
  intros Hb Hl Hr Hroom. unfold Csv.feed_line.
  destruct Hl as [-> | ->].
  - destruct (feed_room body r Hb Hr Hroom) as (r1 & -> & _ & Hlen). simpl.
    destruct (process_eol r1) as (r2 & He & Hst).
    exists r2. repeat split; [done | done |].
    apply process_eol_field in He. lia.
  - rewrite length_snoc in Hroom. rewrite snoc_append, feed_app.
    destruct (feed_room body r Hb Hr) as (r1 & -> & Hr1 & Hlen); [lia|]. simpl.
    destruct (process_char_room r1 LF Hr1) as (r2 & -> & Hlen2); [lia|]. simpl.
    destruct (process_eol r2) as (r3 & He & Hst).
    exists r3. repeat split; [done | done |].
    apply process_eol_field in He. rewrite ?snoc_append, length_append. simpl. lia.
Qed.

Lemma reader_from_room (lines : list string) :
  forall r : Csv.ReaderObj,
  Forall (fun l => exists body, Text.existsb Csv.is_newline body = false /\
                                (l = body \/ l = snoc body LF)) lines ->
  not_eating r ->
  (N.of_nat (String.length (Csv.field r)
             + String.length (Text.concat lines)) <= Csv.field_limit)%N ->
  exists rows, Csv.reader_from r lines = inr rows.
Proof.
  induction lines as [|l lines IH]; intros r Hall Hr Hroom; simpl.
  - destruct (negb (is_empty (Csv.field r)) || Csv.in_quoted_field (Csv.state r));
      eauto.
  - apply Forall_cons in Hall as [(body & Hb & Hl) Hall].
    simpl in Hroom. rewrite length_append in Hroom.
    destruct (feed_line_room r l body Hb Hl Hr) as (r1 & -> & Hst & Hlen); [lia|].
    simpl. destruct Hst as [E | E]; rewrite E.
    + destruct (IH Csv.parse_reset Hall) as (rows & ->); [done | simpl; lia |].
      simpl. eauto.
    + apply IH; [done | unfold not_eating; by rewrite E | lia].
Qed.

(** The lines of a text are no longer than the text. *)
Lemma readlines_from_length (n : nat) :
  forall (s cur : string),
  String.length s <= n ->
  String.length (Text.concat (TextIO.readlines_from cur s))
  <= String.length cur + String.length s.
Proof.
  induction n as [|n IH]; intros s cur Hlen.
  - destruct s; [|simpl in Hlen; lia]. simpl.
    destruct (is_empty cur); simpl; rewrite ?append_nil_r; lia.
  - destruct s as [|c rest]; simpl.
    { destruct (is_empty cur); simpl; rewrite ?append_nil_r; lia. }
    simpl in Hlen.
    destruct (Ascii.eqb c LF).
    { simpl. rewrite length_append, length_snoc.
      specialize (IH rest EmptyString). simpl in IH. lia. }
    destruct (Ascii.eqb c CR).
    { destruct rest as [|c' rest'].
      - simpl. rewrite append_nil_r, length_snoc. lia.
      - simpl in Hlen. destruct (Ascii.eqb c' LF); simpl;
          rewrite length_append, length_snoc.
        + specialize (IH rest' EmptyString). simpl in IH. lia.
        + specialize (IH (String c' rest') EmptyString). simpl in IH. lia. }
    specialize (IH rest (snoc cur c)). rewrite length_snoc in IH. lia.
Qed.

(** X15. A source of ASCII text of at most 131072 characters always
    loads: when the file exists, holds only characters below 128 and is
    no longer than the field limit, [read_csv_data] returns a collection
    and leaves the world as it was. *)
Theorem small_source_loads (p : string) (w : world) (content : string) :
  files w !! p = Some content ->
  is_ascii content = true ->
  (N.of_nat (String.length content) <= Csv.field_limit)%N ->
  exists data, read_csv_data p w = (inr data, w).
Proof.
  intros Hf _ Hlen. rewrite (read_csv_data_present _ _ _ Hf).
  unfold Csv.DictReader, Csv.reader.
  destruct (reader_from_room (TextIO.readlines content) Csv.parse_reset)
    as (rows & ->).
  - by apply (readlines_from_shape (String.length content)).
  - done.
  - pose proof (readlines_from_length (String.length content) content EmptyString).
    unfold TextIO.readlines. simpl in *. lia.
  - simpl. destruct rows; eauto.
Qed.

Lemma small_source_loads_witness :
  is_ascii Examples.short_row_source = true /\
  exists data,
    read_csv_data EPICS_CSV_PATH (Examples.epics_world Examples.short_row_source)
    = (inr data, Examples.epics_world Examples.short_row_source).
Proof.
  split; [reflexivity|].
  apply (small_source_loads EPICS_CSV_PATH
           (Examples.epics_world Examples.short_row_source)
           Examples.short_row_source).
  - reflexivity.
  - reflexivity.
  - vm_compute. discriminate.
Defined.

(** ** The simulated keys *)

Lemma replace_char_absent (old : ascii) (new s : string) :
  Text.existsb (fun a => Ascii.eqb a old) s = false ->
  replace_char old new s = s.
Proof.
  induction s as [|a s IH]; [done|]. simpl.
  intros [-> Hs]%orb_false_elim. by rewrite IH.
Qed.

(** The record without a ticket id that has its required fields is given
    the key derived from its local id. *)
Lemma body_creates (c : collection) (dry_run : bool) (r : dict) :
  well_formed c r = true ->
  truthy (get JiraTicketID r) = false ->
  exists id ls,
    get (Some (id_field c)) r = Some (VStr id) /\
    loop_body c dry_run r = (ls, inr (set JiraTicketID (VStr (key_of c id)) r)) /\
    outcome ls = Some (Created (key_of c id)).
Proof.
  destruct c; simpl; intros [H1 H2]%andb_prop Hj;
    apply is_str_inv in H1 as [t Ht]; apply is_str_inv in H2 as [n Hn];
    unfold sync_epic, sync_backlog_item;
    rewrite Hj, (getitem_of_get _ _ _ Ht), (getitem_of_get _ _ _ Hn); simpl;
    exists n; eexists; done.
Qed.

(** X16. An epic without a ticket id whose id is E followed by a text
    without E (E1, E27, ...) is given the key FER-10 followed by that
    text, so two such epics with different ids are given different
    keys. *)
Theorem epic_key_of_usual_id (dry_run : bool) (r : dict) (t : value) (n : string) :
  unsynced r = true ->
  get (Some "Title") r = Some t ->
  get (Some "EpicID") r = Some (VStr (String "E" n)) ->
  Text.existsb (fun a => Ascii.eqb a "E") n = false ->
  sync_epic dry_run r
  = ([FoundNewEpic t; EpicKey dry_run ("FER-10" ++ n)],
     inr (set JiraTicketID (VStr ("FER-10" ++ n)) r)).
Proof.
  unfold unsynced. intros Hu%negb_true_iff Ht Hid Hn. unfold sync_epic.
  rewrite Hu, (getitem_of_get _ _ _ Ht), (getitem_of_get _ _ _ Hid). simpl.
  by rewrite (replace_char_absent _ _ _ Hn).
Qed.

Lemma epic_key_of_usual_id_witness :
  sync_epic false [(Some "EpicID", VStr "E27"); (Some "Title", VStr "Search")]
  = ([FoundNewEpic (VStr "Search"); EpicKey false ("FER-10" ++ "27")],
     inr (set JiraTicketID (VStr ("FER-10" ++ "27"))
            [(Some "EpicID", VStr "E27"); (Some "Title", VStr "Search")])).
Proof.
  apply (epic_key_of_usual_id false
           [(Some "EpicID", VStr "E27"); (Some "Title", VStr "Search")]
           (VStr "Search") "27"); reflexivity.
Defined.

(** X17. The simulated keys can collide: two records without a ticket
    id and with different local ids are given the same key when one epic
    id starts with E where the other starts with 10, and when one subtask
    id starts with a T the other does not have. *)
Theorem keys_can_collide (c : collection) (dry_run : bool) (r1 r2 : dict) (n : string) :
  well_formed c r1 = true -> well_formed c r2 = true ->
  unsynced r1 = true -> unsynced r2 = true ->
  get (Some (id_field c)) r1
  = Some (VStr (match c with Epics => String "E" n | Backlog => String "T" n end)) ->
  get (Some (id_field c)) r2
  = Some (VStr (match c with Epics => "10" ++ n | Backlog => n end)) ->
  exists k r1' r2',
    outcome (loop_body c dry_run r1).1 = Some (Created k) /\
    outcome (loop_body c dry_run r2).1 = Some (Created k) /\
    (loop_body c dry_run r1).2 = inr r1' /\
    (loop_body c dry_run r2).2 = inr r2' /\
    get JiraTicketID r1' = Some (VStr k) /\
    get JiraTicketID r2' = Some (VStr k).
Proof.
  unfold unsynced. intros Hw1 Hw2 Hu1%negb_true_iff Hu2%negb_true_iff Hi1 Hi2.
  destruct (body_creates c dry_run r1 Hw1 Hu1) as (id1 & ls1 & Hid1 & -> & Ho1).
  destruct (body_creates c dry_run r2 Hw2 Hu2) as (id2 & ls2 & Hid2 & -> & Ho2).
  rewrite Hi1 in Hid1. rewrite Hi2 in Hid2.
  injection Hid1 as <-. injection Hid2 as <-. simpl.
  exists (key_of c (match c with Epics => ("10" ++ n)%string | Backlog => n end)).
  eexists. eexists.
  split; [rewrite Ho1; by destruct c|].
  split; [done|]. split; [reflexivity|]. split; [reflexivity|].
  rewrite !get_set_eq. split; [by destruct c | done].
Qed.

Lemma keys_can_collide_witness :
  exists k r1' r2',
    outcome (loop_body Epics false
               [(Some "EpicID", VStr "E1"); (Some "Title", VStr "a")]).1
    = Some (Created k) /\
    outcome (loop_body Epics false
               [(Some "EpicID", VStr "101"); (Some "Title", VStr "b")]).1
    = Some (Created k) /\
    (loop_body Epics false
       [(Some "EpicID", VStr "E1"); (Some "Title", VStr "a")]).2 = inr r1' /\
    (loop_body Epics false
       [(Some "EpicID", VStr "101"); (Some "Title", VStr "b")]).2 = inr r2' /\
    get JiraTicketID r1' = Some (VStr k) /\
    get JiraTicketID r2' = Some (VStr k).
Proof.
  apply (keys_can_collide Epics false
           [(Some "EpicID", VStr "E1"); (Some "Title", VStr "a")]
           [(Some "EpicID", VStr "101"); (Some "Title", VStr "b")] "1");
    reflexivity.
Defined.

(** ** Two commit runs *)

Lemma get_record_of (header : list string) :
  forall (row : list string) (i : nat) (k v : string),
  NoDup header ->
  header !! i = Some k -> row !! i = Some v ->
  get (Some k) (record_of header row) = Some (VStr v).
Proof.
  induction header as [|k0 ks IH]; intros [|v0 vs] i k v Hnd Hk Hv; try done.
  apply NoDup_cons in Hnd as [Hk0 Hnd]. destruct i as [|i]; simpl in *.
  - injection Hk as ->. injection Hv as ->. by rewrite String.eqb_refl.
  - destruct (String.eqb k0 k) eqn:E.
    + apply String.eqb_eq in E. subst k0. exfalso. apply Hk0.
      by apply list_elem_of_lookup_2 in Hk.
    + by apply (IH vs i).
Qed.

Lemma get_record_of_elem (header : list string) :
  forall (row : list string) (k : key) (v : string),
  get k (record_of header row) = Some (VStr v) -> v ∈ row.
Proof.
  induction header as [|k0 ks IH]; intros [|v0 vs] k v; try done.
  change (record_of (k0 :: ks) (v0 :: vs))
    with ((Some k0, VStr v0) :: record_of ks vs).
  cbn [get]. destruct (key_eqb (Some k0) k).
  - intros [= ->]. by left.
  - intros H. right. by apply (IH vs k).
Qed.

Lemma set_record_of (header : list string) :
  forall (row : list string) (i : nat) (k v : string),
  NoDup header ->
  header !! i = Some k -> length row = length header ->
  set (Some k) (VStr v) (record_of header row) = record_of header (<[i := v]> row).
Proof.
  induction header as [|k0 ks IH]; intros [|v0 vs] i k v Hnd Hk Hlen; try done.
  apply NoDup_cons in Hnd as [Hk0 Hnd]. destruct i as [|i]; simpl in *.
  - injection Hk as ->. by rewrite String.eqb_refl.
  - destruct (String.eqb k0 k) eqn:E.
    + apply String.eqb_eq in E. subst k0. exfalso. apply Hk0.
      by apply list_elem_of_lookup_2 in Hk.
    + change (record_of (k0 :: ks) (v0 :: <[i:=v]> vs))
        with ((Some k0, VStr v0) :: record_of ks (<[i:=v]> vs)).
      f_equal. apply IH; [done | done | lia].
Qed.

Lemma join_not_blank (row : list string) :
  2 <= length row -> is_empty (join (chr COMMA) row) = false.
Proof.
  destruct row as [|f [|g rest]]; simpl; try lia. intros _.
  rewrite is_empty_append. by destruct (is_empty f).
Qed.

Lemma replace_char_plain (old : ascii) (new s : string) :
  Text.existsb Csv.needs_quoting new = false ->
  Text.existsb Csv.needs_quoting s = false ->
  Text.existsb Csv.needs_quoting (replace_char old new s) = false.
Proof.
  intros Hnew. induction s as [|a s IH]; [done|]. simpl.
  intros [Ha Hs]%orb_false_elim.
  destruct (Ascii.eqb a old).
  - by rewrite existsb_append, Hnew, IH.
  - simpl. by rewrite Ha, IH.
Qed.

Lemma replace_char_length (old : ascii) (new s : string) :
  String.length (replace_char old new s)
  <= Nat.max 1 (String.length new) * String.length s.
Proof.
  induction s as [|a s IH]; [simpl; lia|]. simpl.
  destruct (Ascii.eqb a old).
  - rewrite length_append. lia.
  - simpl. lia.
Qed.

(** The key derived from a plain field with room is a plain field. *)
Lemma key_of_plain (c : collection) (id : string) :
  plain id = true -> roomy id = true -> plain (key_of c id) = true.
Proof.
  intros Hp Hr. pose proof (plain_no_special _ Hp) as Hs.
  unfold roomy in Hr. apply N.leb_le in Hr.
  unfold plain. apply andb_true_intro. split.
  - apply negb_true_iff. destruct c; unfold key_of;
      rewrite existsb_append; simpl;
      repeat apply replace_char_plain; done.
  - apply N.leb_le. destruct c; unfold key_of; rewrite length_append; simpl.
    + pose proof (replace_char_length "E" "10" id). simpl in *. lia.
    + pose proof (replace_char_length "." "0" (replace_char "T" EmptyString id)).
      pose proof (replace_char_length "T" EmptyString id). simpl in *. lia.
Qed.

Section PlainSource.
Variable c : collection.
Variable header : list string.
Variable i : nat.
Hypothesis Hnd : NoDup header.
Hypothesis Hjid : header !! i = Some "JiraTicketID".
Hypothesis Hdesc : description_field c ∈ header.
Hypothesis Hid : id_field c ∈ header.

Lemma header_two_columns : 2 <= length header.
Proof.
  apply list_elem_of_lookup_1 in Hid as [j Hj].
  assert (i <> j).
  { intros ->. rewrite Hjid in Hj. by destruct c. }
  apply lookup_lt_Some in Hjid. apply lookup_lt_Some in Hj. lia.
Qed.

Lemma record_well_formed (row : list string) :
  length row = length header ->
  well_formed c (record_of header row) = true.
Proof.
  intros Hlen.
  assert (Hin : forall k, k ∈ header ->
                  is_str (get (Some k) (record_of header row)) = true).
  { intros k [j Hj]%list_elem_of_lookup_1.
    destruct (lookup_lt_is_Some_2 row j) as [v Hv].
    { rewrite Hlen. by apply lookup_lt_Some in Hj. }
    by rewrite (get_record_of _ _ _ _ _ Hnd Hj Hv). }
  pose proof (Hin _ Hdesc) as H1. pose proof (Hin _ Hid) as H2.
  destruct c; simpl in *; by rewrite H1, H2.
Qed.

Lemma key_of_truthy (id : string) : truthy (Some (VStr (key_of c id))) = true.
Proof. by destruct c. Qed.

(** The body of the loop on the record of a row: the record it leaves
    is the record of a row, the same or with the key in its ticket id
    column. *)
Lemma body_on_row (dry_run : bool) (row : list string) :
  canonical_row (length header) row = true ->
  forallb roomy row = true ->
  exists ls row',
    loop_body c dry_run (record_of header row) = (ls, inr (record_of header row')) /\
    canonical_row (length header) row' = true /\
    truthy (get JiraTicketID (record_of header row')) = true.
Proof.
  intros Hcan Hroomy.
  pose proof (canonical_row_inv _ _ Hcan) as (Hlen & Hplain & Hnb & _).
  pose proof (record_well_formed row Hlen) as Hwf.
  destruct (truthy (get JiraTicketID (record_of header row))) eqn:Ht.
  - destruct (body_accepts c dry_run _ Hwf) as (ls & r' & Hb).
    destruct (body_cases _ _ _ _ _ Hb) as [(_ & -> & _) | (Hf & _)]; [|congruence].
    by exists ls, row.
  - destruct (body_creates c dry_run _ Hwf Ht) as (id & ls & Hgid & Hb & _).
    exists ls, (<[i := key_of c id]> row).
    unfold JiraTicketID in *.
    rewrite (set_record_of _ _ _ _ _ Hnd Hjid Hlen) in Hb.
    split; [done|].
    assert (Hi : i < length row).
    { rewrite Hlen. by apply lookup_lt_Some in Hjid. }
    split.
    + unfold canonical_row. rewrite length_insert, Hlen, Nat.eqb_refl. simpl.
      apply andb_true_intro. split.
      * apply forallb_forall. intros f Hf. apply list_elem_of_In in Hf.
        apply list_elem_of_lookup_1 in Hf as [j Hj].
        destruct (decide (i = j)) as [<- | Hne].
        -- rewrite list_lookup_insert_eq in Hj by done. injection Hj as <-.
           apply get_record_of_elem, list_elem_of_In in Hgid.
           apply key_of_plain.
           ++ by apply (proj1 (forallb_forall _ _) Hplain).
           ++ by apply (proj1 (forallb_forall _ _) Hroomy).
        -- rewrite list_lookup_insert_ne in Hj by done.
           apply (proj1 (forallb_forall _ _) Hplain).
           apply list_elem_of_In. by apply list_elem_of_lookup_2 in Hj.
      * apply negb_true_iff, join_not_blank. rewrite length_insert, Hlen.
        apply header_two_columns.
    + rewrite (get_record_of header _ i "JiraTicketID" (key_of c id) Hnd Hjid).
      * apply key_of_truthy.
      * by apply list_lookup_insert_eq.
Qed.

Lemma pass_on_rows (dry_run : bool) (rows : list (list string)) :
  forallb (canonical_row (length header)) rows = true ->
  forallb (forallb roomy) rows = true ->
  exists blocks rows',
    for_each (loop_body c dry_run) (map (record_of header) rows)
    = (blocks, inr (map (record_of header) rows')) /\
    forallb (canonical_row (length header)) rows' = true /\
    length rows' = length rows /\
    Forall (fun row' => truthy (get JiraTicketID (record_of header row')) = true) rows'.
Proof.
  induction rows as [|row rows IH]; simpl.
  - intros _ _. exists [], []. repeat split. constructor.
  - intros [Hrow Hrows]%andb_prop [Hr Hrs]%andb_prop.
    destruct (body_on_row dry_run row Hrow Hr) as (ls & row' & -> & Hcan & Ht).
    destruct (IH Hrows Hrs) as (bs & rows' & -> & Hcans & Hlen & Hts).
    exists (ls :: bs), (row' :: rows'). simpl. rewrite Hcan, Hcans, Hlen.
    repeat split. by constructor.
Qed.

Lemma skip_pass (dry_run : bool) (rows : list (list string)) :
  forallb (canonical_row (length header)) rows = true ->
  Forall (fun row => truthy (get JiraTicketID (record_of header row)) = true) rows ->
  exists blocks,
    for_each (loop_body c dry_run) (map (record_of header) rows)
    = (blocks, inr (map (record_of header) rows)) /\
    creations (List.concat blocks) = 0.
Proof.
  induction rows as [|row rows IH]; simpl.
  - intros _ _. by exists [].
  - intros [Hrow Hrows]%andb_prop [Ht Hts]%Forall_cons.
    pose proof (canonical_row_inv _ _ Hrow) as (Hlen & _).
    destruct (body_accepts c dry_run _ (record_well_formed row Hlen)) as (ls & r' & Hb).
    destruct (body_cases _ _ _ _ _ Hb) as [(_ & -> & Hc & _) | (Hf & _)]; [|congruence].
    destruct (IH Hrows Hts) as (bs & -> & Hcs).
    rewrite Hb. exists (ls :: bs). simpl. split; [done|].
    rewrite creations_app. lia.
Qed.

(** A commit run on a source in the writer's form, once its pass is
    known. *)
Lemma commit_on_plain_source (w : world) (rows rows' : list (list string))
  (blocks : list (list line)) :
  files w !! source_path c = Some (plain_text (header :: rows)) ->
  forallb (canonical_row (length header)) (header :: rows) = true ->
  for_each (loop_body c false) (map (record_of header) rows)
  = (blocks, inr (map (record_of header) rows')) ->
  rows' <> [] ->
  forallb (canonical_row (length header)) (header :: rows') = true ->
  sync c false w
  = (inr tt,
     printed [updated c; complete c]
       (with_file (source_path c) (plain_text (header :: rows'))
          (printed (starting c :: List.concat blocks) w))).
Proof.
  intros Hf Hall Hloop Hne Hall'.
  rewrite sync_unfold, Hf, (load_plain_text _ _ Hnd Hall), Hloop.
  destruct rows' as [|row' rows']; [done|].
  change (map (record_of header) (row' :: rows'))
    with (record_of header row' :: map (record_of header) rows').
  cbv beta iota zeta.
  change (record_of header row' :: map (record_of header) rows')
    with (map (record_of header) (row' :: rows')).
  assert (Hlen : length row' = length header).
  { simpl in Hall'. apply andb_prop in Hall' as [_ [Hrow _]%andb_prop].
    by apply canonical_row_inv in Hrow as (? & _). }
  rewrite update_csv_data_spec, (keys_record_of _ _ Hlen).
  destruct (csv_text_records header (row' :: rows') Hnd Hall') as [Ht Hc].
  by rewrite Hc, (writable_prefix_all _ _ Hc), Ht.
Qed.

End PlainSource.

Lemma creations_closing (c : collection) (blocks : list (list line)) :
  creations (starting c :: List.concat blocks ++ [updated c; complete c])
  = creations (List.concat blocks).
Proof.
  change (starting c :: List.concat blocks ++ [updated c; complete c])
    with ([starting c] ++ List.concat blocks ++ [updated c; complete c]).
  rewrite !creations_app. destruct c; simpl; unfold creations; simpl; lia.
Qed.

(** X18. Committing is idempotent on disk.  For a source in the writer's
    form whose header has the columns the loop reads and the column
    [JiraTicketID], and whose fields leave room for the keys, a commit run
    ends normally, and a second commit run right after it ends normally
    too, makes no creation and leaves every file as the first run left
    it. *)
Theorem commit_twice_changes_nothing_more
  (c : collection) (w : world) (header : list string) (rows : list (list string)) :
  files w !! source_path c = Some (plain_text (header :: rows)) ->
  NoDup header ->
  rows <> [] ->
  "JiraTicketID" ∈ header ->
  description_field c ∈ header ->
  id_field c ∈ header ->
  forallb (canonical_row (length header)) (header :: rows) = true ->
  forallb (forallb roomy) rows = true ->
  (sync c false w).1 = inr tt /\
  (sync c false (sync c false w).2).1 = inr tt /\
  files (sync c false (sync c false w).2).2 = files (sync c false w).2 /\
  exists ls,
    stdout (sync c false (sync c false w).2).2 = stdout (sync c false w).2 ++ ls /\
    creations ls = 0.
Proof.
  intros Hf Hnd Hne [i Hjid]%list_elem_of_lookup_1 Hdesc Hid Hall Hroomy.
  pose proof Hall as Hall0. simpl in Hall0.
  apply andb_prop in Hall0 as [Hhead Hrows].
  destruct (pass_on_rows c header i Hnd Hjid Hdesc Hid false rows Hrows Hroomy)
    as (blocks & rows' & Hloop & Hcans & Hlen & Hts).
  assert (Hne' : rows' <> []).
  { intros ->. destruct rows; [done | simpl in Hlen; lia]. }
  assert (Hall' : forallb (canonical_row (length header)) (header :: rows') = true).
  { simpl. by rewrite Hhead, Hcans. }
  rewrite (commit_on_plain_source c header Hnd w rows rows' blocks Hf Hall Hloop Hne' Hall').
  simpl. split; [done|].
  destruct (skip_pass c header Hnd Hdesc Hid false rows' Hcans Hts)
    as (blocks' & Hloop' & Hcr).
  erewrite (commit_on_plain_source c header Hnd _ rows' rows' blocks');
    [| simpl; apply lookup_insert_eq | done | done | done | done].
  simpl. split; [done|]. split; [by rewrite insert_insert_eq|].
  exists (starting c :: List.concat blocks' ++ [updated c; complete c]).
  split; [by rewrite <- !app_assoc|].
  by rewrite creations_closing.
Qed.

Lemma commit_twice_changes_nothing_more_witness :
  files (Examples.epics_world Examples.scenario_source) !! source_path Epics
  = Some (plain_text (["EpicID"; "Title"; "JiraTicketID"]
                      :: [["E1"; "Login flow"; EmptyString];
                          ["E2"; "Billing"; "FER-10"]])) /\
  (sync Epics false (Examples.epics_world Examples.scenario_source)).1 = inr tt /\
  (sync Epics false
     (sync Epics false (Examples.epics_world Examples.scenario_source)).2).1 = inr tt /\
  files (sync Epics false
           (sync Epics false (Examples.epics_world Examples.scenario_source)).2).2
  = files (sync Epics false (Examples.epics_world Examples.scenario_source)).2 /\
  exists ls,
    stdout (sync Epics false
              (sync Epics false (Examples.epics_world Examples.scenario_source)).2).2
    = stdout (sync Epics false (Examples.epics_world Examples.scenario_source)).2 ++ ls /\
    creations ls = 0.
Proof.
  split; [reflexivity|].
  apply (commit_twice_changes_nothing_more Epics
           (Examples.epics_world Examples.scenario_source)
           ["EpicID"; "Title"; "JiraTicketID"]
           [["E1"; "Login flow"; EmptyString]; ["E2"; "Billing"; "FER-10"]]).
  - reflexivity.
  - apply (bool_decide_unpack _). reflexivity.
  - discriminate.
  - apply (bool_decide_unpack _). reflexivity.
  - apply (bool_decide_unpack _). reflexivity.
  - apply (bool_decide_unpack _). reflexivity.
  - reflexivity.
  - vm_compute. reflexivity.
Defined.

(** ** After a commit run *)

(** X19. After a commit run on a source in the writer's form whose
    header has the columns the loop reads and the column [JiraTicketID],
    the source is fully synchronized: loading it gives as many records as
    it had, each with its required fields and a non-empty ticket id. *)
Theorem committed_source_is_synchronized
  (c : collection) (w : world) (header : list string) (rows : list (list string)) :
  files w !! source_path c = Some (plain_text (header :: rows)) ->
  NoDup header ->
  rows <> [] ->
  "JiraTicketID" ∈ header ->
  description_field c ∈ header ->
  id_field c ∈ header ->
  forallb (canonical_row (length header)) (header :: rows) = true ->
  forallb (forallb roomy) rows = true ->
  exists data,
    read_csv_data (source_path c) (sync c false w).2 = (inr data, (sync c false w).2) /\
    length data = length rows /\
    Forall (fun r => truthy (get JiraTicketID r) = true /\ well_formed c r = true) data.
Proof.
  intros Hf Hnd Hne [i Hjid]%list_elem_of_lookup_1 Hdesc Hid Hall Hroomy.
  pose proof Hall as Hall0. simpl in Hall0.
  apply andb_prop in Hall0 as [Hhead Hrows].
  destruct (pass_on_rows c header i Hnd Hjid Hdesc Hid false rows Hrows Hroomy)
    as (blocks & rows' & Hloop & Hcans & Hlen & Hts).
  assert (Hne' : rows' <> []).
  { intros ->. destruct rows; [done | simpl in Hlen; lia]. }
  assert (Hall' : forallb (canonical_row (length header)) (header :: rows') = true).
  { simpl. by rewrite Hhead, Hcans. }
  rewrite (commit_on_plain_source c header Hnd w rows rows' blocks Hf Hall Hloop Hne' Hall').
  simpl. exists (map (record_of header) rows').
  erewrite read_csv_data_present; [|simpl; apply lookup_insert_eq].
  rewrite (load_plain_text _ _ Hnd Hall'). split; [done|].
  split; [by rewrite length_map|].
  apply Forall_map, Forall_forall. intros row' Hin. simpl. split.
  - by apply (proj1 (Forall_forall _ _) Hts).
  - apply (record_well_formed c header Hnd Hdesc Hid).
    apply list_elem_of_In in Hin.
    apply (proj1 (forallb_forall _ _) Hcans) in Hin.
    by apply canonical_row_inv in Hin as (? & _).
Qed.

Lemma committed_source_is_synchronized_witness :
  exists data,
    read_csv_data (source_path Epics)
      (sync Epics false (Examples.epics_world Examples.scenario_source)).2
    = (inr data, (sync Epics false (Examples.epics_world Examples.scenario_source)).2) /\
    length data = 2 /\
    Forall (fun r => truthy (get JiraTicketID r) = true /\ well_formed Epics r = true)
      data.
Proof.
  apply (committed_source_is_synchronized Epics
           (Examples.epics_world Examples.scenario_source)
           ["EpicID"; "Title"; "JiraTicketID"]
           [["E1"; "Login flow"; EmptyString]; ["E2"; "Billing"; "FER-10"]]).
  - reflexivity.
  - apply (bool_decide_unpack _). reflexivity.
  - discriminate.
  - apply (bool_decide_unpack _). reflexivity.
  - apply (bool_decide_unpack _). reflexivity.
  - apply (bool_decide_unpack _). reflexivity.
  - reflexivity.
  - vm_compute. reflexivity.
Defined.

(** ** Line ends *)

Lemma readlines_from_lf_line (s : string) :
  forall (cur rest : string),
  Text.existsb Csv.is_newline s = false ->
  TextIO.readlines_from cur (s ++ lf ++ rest)
  = (cur ++ s ++ lf)%string :: TextIO.readlines_from EmptyString rest.
Proof.
  induction s as [|c s IH]; intros cur rest Hs.
  - rewrite append_nil_l. unfold lf, chr. rewrite !append_cons, append_nil_l.
    simpl. by rewrite snoc_append.
  - simpl in Hs. apply orb_false_elim in Hs as [Hc Hs].
    unfold Csv.is_newline in Hc. apply orb_false_elim in Hc as [Hlf Hcr].
    rewrite append_cons. simpl. rewrite Hlf, Hcr.
    rewrite IH by done. by rewrite snoc_append_cons.
Qed.

Lemma readlines_lf_text (rows : list (list string)) :
  Forall (fun row => forallb plain row = true) rows ->
  TextIO.readlines (lf_text rows) = map text_line rows.
Proof.
  unfold TextIO.readlines, lf_text.
  induction 1 as [|row rows Hrow _ IH]; [done|].
  simpl. unfold text_line at 1. rewrite append_assoc.
  rewrite readlines_from_lf_line by by apply join_no_newline.
  by rewrite IH.
Qed.

(** X20. Line ends are normalised.  A source of plain rows with lines
    ended by LF loads as the same records as the same rows with lines
    ended by CR LF, and saving what was loaded leaves the CR LF form at
    the source. *)
Theorem lf_source_is_saved_with_crlf
  (p : string) (w : world) (header : list string) (rows : list (list string)) :
  files w !! p = Some (lf_text (header :: rows)) ->
  NoDup header ->
  rows <> [] ->
  forallb (canonical_row (length header)) (header :: rows) = true ->
  read_csv_data p w = (inr (map (record_of header) rows), w) /\
  read_csv_data p (with_file p (plain_text (header :: rows)) w)
  = (inr (map (record_of header) rows), with_file p (plain_text (header :: rows)) w) /\
  save_after_load p w = (inr tt, with_file p (plain_text (header :: rows)) w).
Proof.
  intros Hf Hnd Hne Hall.
  assert (Hload : Csv.DictReader (TextIO.readlines (lf_text (header :: rows)))
                  = inr (map (record_of header) rows)).
  { rewrite <- (load_plain_text _ _ Hnd Hall).
    rewrite readlines_lf_text, readlines_plain_text;
      [done | | ]; by eapply forallb_canonical_plain. }
  split; [by rewrite (read_csv_data_present _ _ _ Hf), Hload|].
  split.
  { erewrite read_csv_data_present; [|simpl; apply lookup_insert_eq].
    by rewrite (load_plain_text _ _ Hnd Hall). }
  unfold save_after_load, bind.
  rewrite (read_csv_data_present _ _ _ Hf), Hload.
  destruct rows as [|row rows]; [done|].
  change (map (record_of header) (row :: rows))
    with (record_of header row :: map (record_of header) rows).
  cbv beta iota.
  change (record_of header row :: map (record_of header) rows)
    with (map (record_of header) (row :: rows)).
  assert (Hlen : length row = length header).
  { simpl in Hall. apply andb_prop in Hall as [_ [Hrow _]%andb_prop].
    by apply canonical_row_inv in Hrow as (? & _). }
  rewrite update_csv_data_spec, (keys_record_of _ _ Hlen).
  destruct (csv_text_records header (row :: rows) Hnd Hall) as [Ht Hc].
  by rewrite Hc, (writable_prefix_all _ _ Hc), Ht.
Qed.

Lemma lf_source_is_saved_with_crlf_witness :
  files (Examples.epics_world Examples.synced_lf_source) !! EPICS_CSV_PATH
  = Some (lf_text (["EpicID"; "Title"; "JiraTicketID"]
                   :: [["E2"; "Billing"; "FER-10"]])) /\
  save_after_load EPICS_CSV_PATH (Examples.epics_world Examples.synced_lf_source)
  = (inr tt,
     with_file EPICS_CSV_PATH
       (plain_text (["EpicID"; "Title"; "JiraTicketID"]
                    :: [["E2"; "Billing"; "FER-10"]]))
       (Examples.epics_world Examples.synced_lf_source)).
Proof.
  split; [reflexivity|].
  apply (lf_source_is_saved_with_crlf EPICS_CSV_PATH
           (Examples.epics_world Examples.synced_lf_source)
           ["EpicID"; "Title"; "JiraTicketID"] [["E2"; "Billing"; "FER-10"]]).
  - reflexivity.
  - apply (bool_decide_unpack _). reflexivity.
  - discriminate.
  - reflexivity.
Defined.

(** ** The script as a program *)

Lemma dry_run_files (c : collection) (w : world) : files (sync c true w).2 = files w.
Proof.
  rewrite sync_unfold.
  destruct (files w !! source_path c) as [content|]; [|done].
  destruct (Csv.DictReader (TextIO.readlines content)) as [e|data]; [done|].
  by destruct (for_each (loop_body c true) data) as [blocks [e|data']].
Qed.

(** X21. The script run as a program prints its three opening lines,
    syncs the epics, then the backlog, both in dry-run mode, and prints its
    closing line.  When the epics sync raises, the program ends with that
    exception: the backlog sync does not start and the closing line is not
    printed.  Otherwise the program returns what the backlog sync returns
    when run alone, the lines of the backlog sync follow those of the
    epics sync, and the closing line is printed when the backlog sync
    returns normally. *)
Theorem main_runs_epics_then_backlog (w : world) :
  (main w).1 = match (sync_epics_to_jira true w).1 with
               | inl e => inl e
               | inr _ => (sync_backlog_to_jira true w).1
               end /\
  exists epics_lines backlog_lines,
    stdout (sync_epics_to_jira true w).2 = stdout w ++ epics_lines /\
    stdout (sync_backlog_to_jira true w).2 = stdout w ++ backlog_lines /\
    stdout (main w).2
    = stdout w ++ [StartingSyncProcess; PlaceholderNote; RunForRealNote]
      ++ epics_lines
      ++ match (sync_epics_to_jira true w).1 with
         | inl _ => []
         | inr _ =>
             backlog_lines
             ++ match (sync_backlog_to_jira true w).1 with
                | inl _ => []
                | inr _ => [SyncProcessFinished]
                end
         end.
Proof.
  unfold main, bind, print. cbv beta iota.
  change (sync_epics_to_jira true) with (sync Epics true).
  change (sync_backlog_to_jira true) with (sync Backlog true).
  destruct (sync_effect Epics true (files w !! source_path Epics)) as (r1 & l1 & t1 & H1).
  destruct (sync_effect Backlog true (files w !! source_path Backlog))
    as (r2 & l2 & t2 & H2).
  pose proof (dry_run_files Epics w) as Hd.
  rewrite (H1 w eq_refl) in Hd |- *. rewrite (H2 w eq_refl).
  rewrite H1 by done. simpl in *.
  destruct r1 as [e|[]]; simpl.
  - split; [done|]. exists l1, l2. rewrite app_nil_r, <- !app_assoc. done.
  - rewrite H2 by (simpl; by rewrite Hd). simpl.
    destruct r2 as [e|[]]; simpl; (split; [done|]); exists l1, l2;
      rewrite ?app_nil_r, <- ?app_assoc; done.
Qed.

(** ** Rows of any number of fields *)









